(** * BottomTabView: the bottom-tabs navigator view of react-navigation

    A shallow embedding of [BottomTabView.tsx] (the view that mounts one
    screen per tab, starts the tab transitions, places the tab bar and
    loads screens lazily) together with the properties stated about it.

    Conventions of the embedding.
    - A JavaScript [number] is a rational [Q]; rounding, [NaN] and the
      infinities are not modelled.  Array indices are [nat]: an index
      that is negative or fractional reads [undefined] exactly as an
      index past the end does.
    - An optional property is an [option]; [None] is [undefined].
    - An object used as a dictionary is a [gmap] with string keys.
    - An expression that throws yields [Throw]; everything else yields
      [Normal].
    - React's hooks are explicit state: one execution of the component
      body is a function of the props and the hook state, and the
      surrounding render loop, the commit of effects and the state
      setters are written out. *)

From Stdlib Require Import QArith Lqa.
From stdpp Require Import gmap strings list.

Close Scope Q_scope.
Open Scope Z_scope.
Open Scope nat_scope.

(** ** Completions: values or thrown errors *)

Inductive JSError : Type :=
  | TypeError          (* reading a property of [undefined] *)
  | TooManyRerenders.  (* React's guard against render-phase update loops *)

Inductive completion (A : Type) : Type :=
  | Normal (a : A)
  | Throw (e : JSError).
Arguments Normal {A} a.
Arguments Throw {A} e.

Definition cbind {A B} (m : completion A) (f : A → completion B) : completion B :=
  match m with
  | Normal a => f a
  | Throw e => Throw e
  end.

#[global] Instance completion_ret : MRet completion := @Normal.
#[global] Instance completion_bind : MBind completion :=
  λ A B f m, cbind m f.

(** [o.p] where [o] may be [undefined]: reading through [undefined] throws. *)
Definition defined {A} (o : option A) : completion A :=
  match o with
  | Some a => Normal a
  | None => Throw TypeError
  end.

(** [a ?? b] *)
Definition nullish {A} (a : option A) (b : A) : A :=
  match a with
  | Some x => x
  | None => b
  end.

(** ** Plain data *)

(** ['none' | 'fade' | 'shift'] *)
Inductive TabAnimationName : Type := AnimNone | AnimFade | AnimShift.

(** ['bottom' | 'top' | 'left' | 'right'] *)
Inductive TabBarPosition : Type := PosBottom | PosTop | PosLeft | PosRight.

(** The two drivers a transition spec may name: [Animated.timing] and
    [Animated.spring]. *)
Inductive AnimationDriver : Type := timing | spring.

(** Values found in an animation config object. *)
Inductive ConfigValue : Type :=
  | VNumber (q : Q)
  | VBoolean (b : bool)
  | VFunction (id : string).  (* an easing function, by name *)

Record TransitionSpec : Type := {
  spec_animation : AnimationDriver;          (* [animation] *)
  spec_config : gmap string ConfigValue;     (* [config] *)
}.

Record Route : Type := {
  key : string;
  name : string;
}.

(** The fields of [TabNavigationState] the view reads. *)
Record TabNavigationState : Type := {
  index : nat;
  routes : list Route;
  preloadedRouteKeys : list string;
}.

(** [EdgeInsets] of the safe-area context. *)
Record EdgeInsets : Type := {
  inset_top : Q;
  inset_right : Q;
  inset_bottom : Q;
  inset_left : Q;
}.

(** The [safeAreaInsets] prop: an object whose four sides are each
    optional.  A side can be absent ([None]), present and [undefined]
    ([Some None]) or a number. *)
Abbreviation PartialInsets := (gmap string (option Q)).

Inductive Side : Type := SideTop | SideRight | SideBottom | SideLeft.

Definition side_key (s : Side) : string :=
  match s with
  | SideTop => "top"
  | SideRight => "right"
  | SideBottom => "bottom"
  | SideLeft => "left"
  end.

Definition edge (e : EdgeInsets) (s : Side) : Q :=
  match s with
  | SideTop => inset_top e
  | SideRight => inset_right e
  | SideBottom => inset_bottom e
  | SideLeft => inset_left e
  end.

(** [{ ...e }]: the object with the four sides of [e]. *)
Definition insets_object (e : EdgeInsets) : PartialInsets :=
  <["top" := Some (inset_top e)]>
    (<["right" := Some (inset_right e)]>
       (<["bottom" := Some (inset_bottom e)]>
          (<["left" := Some (inset_left e)]> ∅))).

Record Layout : Type := {
  width : Q;
  height : Q;
}.

Inductive FlexDirection : Type := row | row_reverse.

Record RootStyle : Type := {
  flexDirection : FlexDirection;
}.

Record ScreensStyle : Type := {
  flex : Q;
  overflow : string;
}.

(** [StyleSheet.create({ left, right, screens })] *)
Definition styles_left : RootStyle := {| flexDirection := row_reverse |}.
Definition styles_right : RootStyle := {| flexDirection := row |}.
Definition styles_screens : ScreensStyle := {| flex := 1%Q; overflow := "hidden" |}.

Definition EPSILON : Q := 1 # 100000.
Definition STATE_INACTIVE : Q := 0%Q.
Definition STATE_TRANSITIONING_OR_BELOW_TOP : Q := 1%Q.
Definition STATE_ON_TOP : Q := 2%Q.

Inductive Extrapolate : Type := extend | clamp | identity.

(** The argument of [Animated.Value.interpolate]. *)
Record InterpolationConfig : Type := {
  inputRange : list Q;
  outputRange : list Q;
  extrapolate : Extrapolate;
}.

(** What the host framework's [interpolate] computes from such a
    config: the segment is the first one whose upper knot is at or
    above the input (the last one otherwise), and the value moves
    linearly between the two knots of the segment.  With [extend] the
    line is followed outside the knots too. *)
Definition interpolateSegment (e : Extrapolate) (x inMin inMax outMin outMax : Q) : Q :=
  let outside := orb (negb (Qle_bool inMin x)) (negb (Qle_bool x inMax)) in
  match e, outside with
  | identity, true => x
  | _, _ =>
      let x' :=
        match e with
        | clamp =>
            if negb (Qle_bool inMin x) then inMin
            else if negb (Qle_bool x inMax) then inMax else x
        | _ => x
        end in
      if Qeq_bool outMin outMax then outMin
      else if Qeq_bool inMin inMax then
        (if Qle_bool x inMin then outMin else outMax)
      else ((x' - inMin) / (inMax - inMin) * (outMax - outMin) + outMin)%Q
  end.

Fixpoint interpolateFrom (e : Extrapolate) (ins outs : list Q) (x : Q) : option Q :=
  match ins, outs with
  | i0 :: ((i1 :: ins2) as ins'), o0 :: ((o1 :: _) as outs') =>
      match ins2 with
      | [] => Some (interpolateSegment e x i0 i1 o0 o1)
      | _ :: _ =>
          if Qle_bool x i1 then Some (interpolateSegment e x i0 i1 o0 o1)
          else interpolateFrom e ins' outs' x
      end
  | _, _ => None
  end.

Definition interpolate (c : InterpolationConfig) (x : Q) : option Q :=
  interpolateFrom (extrapolate c) (inputRange c) (outputRange c) x.

(** ['web' | 'android' | 'ios' | ...] *)
Inductive PlatformOS : Type := web | android | ios | windows | macos.

(** Values of the host framework that the view only passes along. *)
Class HostTypes : Type := {
  ViewStyle : Type;           (* style objects *)
  ReactNode : Type;           (* rendered elements *)
  AnimatedValue : Type;       (* [Animated.Value] *)
  NavigationHelpers : Type;
  NavigationProp : Type;
  HeaderRenderer : Type;      (* a [header] function supplied in the options *)
}.

Section Model.

Context `{HostTypes}.

(** [BottomTabNavigationOptions], the fields the view reads. *)
Record BottomTabNavigationOptions : Type := {
  lazy : option bool;
  unmountOnBlur : option bool;
  animation : option TabAnimationName;
  transitionSpec : option TransitionSpec;
  sceneStyleInterpolator : option (option AnimatedValue → option ViewStyle);
  tabBarPosition : option TabBarPosition;
  tabBarStyle : option ViewStyle;
  freezeOnBlur : option bool;
  header : option HeaderRenderer;
  headerShown : option bool;
  headerStatusBarHeight : option Q;
  headerTransparent : option bool;
}.

(** A boolean-typed optional used as a condition. *)
Definition truthy (b : option bool) : bool := nullish b false.

Definition hasAnimation (options : BottomTabNavigationOptions) : bool :=
  match animation options with
  | Some a =>
      (* every animation name is a non-empty string, hence truthy *)
      match a with
      | AnimNone => false
      | _ => true
      end
  | None =>
      match transitionSpec options with
      | Some _ => false
      | None => true
      end
  end.

(** [BottomTabTransitionPreset], the fields the view reads. *)
Record TransitionPreset : Type := {
  preset_sceneStyleInterpolator : option (option AnimatedValue → option ViewStyle);
  preset_transitionSpec : option TransitionSpec;
}.

Record Descriptor : Type := {
  options : BottomTabNavigationOptions;
  route : Route;
  navigation : NavigationProp;
  render : unit → ReactNode;
}.

Record BottomTabBarProps : Type := {
  bar_state : TabNavigationState;               (* [state] *)
  bar_descriptors : gmap string Descriptor;     (* [descriptors] *)
  bar_navigation : NavigationHelpers;           (* [navigation] *)
  bar_insets : EdgeInsets;                      (* [insets] *)
}.

Record BottomTabHeaderProps : Type := {
  hp_layout : Layout;
  hp_route : Route;
  hp_navigation : NavigationProp;
  hp_options : BottomTabNavigationOptions;
}.

(** The argument of [getTabBarHeight]. *)
Record TabBarHeightArgs : Type := {
  h_state : TabNavigationState;
  h_descriptors : gmap string Descriptor;
  h_dimensions : Layout;
  h_layout : Layout;
  h_insets : PartialInsets;
  h_style : option ViewStyle;
}.

(** [Props] of the view. *)
Record Props : Type := {
  tabBar : option (BottomTabBarProps → ReactNode);
  state : TabNavigationState;
  helpers : NavigationHelpers;                  (* [navigation] *)
  descriptors : gmap string Descriptor;
  safeAreaInsets : option PartialInsets;
  detachInactiveScreens : option bool;
  sceneContainerStyle : option ViewStyle;
}.

(** What the view imports from the rest of the package and from the
    host framework and uses without looking inside: the two presets of
    [TransitionConfigs/TransitionPresets], the tab bar and its height,
    the header, the hook that keeps one animated value per route, the
    platform and [SafeAreaProviderCompat.initialMetrics]. *)
Class Host : Type := {
  FadeTransition : TransitionPreset;
  ShiftTransition : TransitionPreset;
  BottomTabBar : BottomTabBarProps → ReactNode;
  getTabBarHeight : TabBarHeightArgs → Q;
  Header : BottomTabNavigationOptions → Layout → string → ReactNode;
  getHeaderTitle : BottomTabNavigationOptions → string → string;
  callHeader : HeaderRenderer → BottomTabHeaderProps → ReactNode;
  useAnimatedHashMap : TabNavigationState → gmap string AnimatedValue;
  Platform_OS : PlatformOS;
  initialMetrics_frame : Layout;
  initialMetrics_insets : EdgeInsets;
}.

Context `{Host}.

(** [NAMED_TRANSITIONS_PRESETS.none.transitionSpec] *)
Definition none_transitionSpec : TransitionSpec :=
  {| spec_animation := timing;
     spec_config := {["duration" := VNumber 0%Q]} |}.

Definition NAMED_TRANSITIONS_PRESETS (a : TabAnimationName) : TransitionPreset :=
  match a with
  | AnimFade => FadeTransition
  | AnimShift => ShiftTransition
  | AnimNone =>
      {| preset_sceneStyleInterpolator := None;
         preset_transitionSpec := Some none_transitionSpec |}
  end.

(** ** What the view renders *)

(** The [active] prop of [MaybeScreen]: a number, or the interpolation
    of an animated value. *)
Inductive ActivityState : Type :=
  | ActivityNumber (n : Q)
  | ActivityInterpolation (v : AnimatedValue) (c : InterpolationConfig).

(** Props of [Screen]. *)
Record ScreenProps : Type := {
  focused : bool;
  screen_route : Route;
  screen_navigation : NavigationProp;
  screen_headerShown : option bool;
  screen_headerStatusBarHeight : option Q;
  screen_headerTransparent : option bool;
  screen_header : ReactNode;
  (* [[sceneContainerStyle, animationEnabled && sceneStyle]] *)
  screen_style : option ViewStyle * option ViewStyle;
  screen_children : ReactNode;
}.

(** A [MaybeScreen] element with the height context and the [Screen]
    inside it. *)
Record MaybeScreenElement : Type := {
  element_key : string;
  zIndex : Z;
  active : ActivityState;
  enabled : bool;
  element_freezeOnBlur : option bool;
  heightContext : Q;          (* value of [BottomTabBarHeightContext.Provider] *)
  screen : ScreenProps;
}.

Record ScreenContainerElement : Type := {
  container_enabled : bool;
  hasTwoStates : bool;
  container_style : ScreensStyle;
  children : list (option MaybeScreenElement);
}.

(** State kept by the hooks of one mounted view. *)
Record EffectDeps : Type := {
  dep_descriptors : positive;
  dep_focusedRouteKey : string;
  dep_index : nat;
  dep_routes : positive;
  dep_tabAnims : positive;
}.

Record Hooks : Type := {
  loaded : list string;               (* [useState([focusedRouteKey])] *)
  previousRouteKeyRef : string;       (* [useRef(focusedRouteKey)] *)
  tabBarHeight : Q;                   (* [useState(() => getTabBarHeight(..))] *)
  effectDeps : option EffectDeps;     (* dependencies of the last effect run *)
}.

(** The tab bar under [BottomTabBarHeightCallbackContext.Provider]: the
    value provided, and the consumer of the safe-area insets context. *)
Record TabBarElement : Type := {
  heightCallback : Q → Hooks → Hooks;
  consumer : option EdgeInsets → ReactNode;
}.

(** The children of [SafeAreaProviderCompat], in order. *)
Record Rendered : Type := {
  root_style : option RootStyle;
  tabBarBefore : option TabBarElement;
  screens : ScreenContainerElement;
  tabBarAfter : option TabBarElement;
}.

(** The three child expressions of the root, as the JSX lists them;
    [None] is a [null] child. *)
Inductive RootChild : Type :=
  | TabBarChild (bar : TabBarElement)
  | ScreensChild (c : ScreenContainerElement).

Definition rootChildren (t : Rendered) : list (option RootChild) :=
  [TabBarChild <$> tabBarBefore t;
   Some (ScreensChild (screens t));
   TabBarChild <$> tabBarAfter t].

(** An animation built by [Animated.timing] or [Animated.spring]. *)
Record CompositeAnimation : Type := {
  driver : AnimationDriver;
  animated : option AnimatedValue;
  animation_config : gmap string ConfigValue;
}.

(** One execution of the component body: what it returns and the
    [setLoaded] call it made, if any. *)
Record RenderPass : Type := {
  output : Rendered;
  setLoaded : option (list string);
}.

(** ** Helpers of the language *)

(** [a ?? b] where [b] may itself be [undefined] *)
Definition nullish_or {A} (a b : option A) : option A :=
  match a with
  | Some _ => a
  | None => b
  end.

(** [array.includes(k)] on strings *)
Definition includes (l : list string) (k : string) : bool :=
  bool_decide (k ∈ l).

(** [array.map((x, index) => ..)], stopping at the first throw *)
Fixpoint mapWithIndex {A B} (f : A → nat → completion B) (i : nat) (l : list A)
  : completion (list B) :=
  match l with
  | [] => Normal []
  | x :: l' =>
      y ← f x i;
      ys ← mapWithIndex f (S i) l';
      Normal (y :: ys)
  end.

(** [array.some(p)]: stops at the first element that satisfies [p] *)
Fixpoint some {A} (p : A → completion bool) (l : list A) : completion bool :=
  match l with
  | [] => Normal false
  | x :: l' =>
      match p x with
      | Normal true => Normal true
      | Normal false => some p l'
      | Throw e => Throw e
      end
  end.

(** ** The view *)

(** [safeAreaInsets?.side ?? insets?.side ?? 0] *)
Definition resolveInset (safeAreaInsets : option PartialInsets)
    (insets : option EdgeInsets) (s : Side) : Q :=
  nullish
    (nullish_or (m ← safeAreaInsets; mjoin (m !! side_key s))
                (e ← insets; Some (edge e s)))
    0%Q.

(** The argument of [tabBar] in [renderTabBar] *)
Definition tabBarProps (props : Props) (insets : option EdgeInsets) : BottomTabBarProps :=
  {| bar_state := state props;
     bar_descriptors := descriptors props;
     bar_navigation := helpers props;
     bar_insets :=
       {| inset_top := resolveInset (safeAreaInsets props) insets SideTop;
          inset_right := resolveInset (safeAreaInsets props) insets SideRight;
          inset_bottom := resolveInset (safeAreaInsets props) insets SideBottom;
          inset_left := resolveInset (safeAreaInsets props) insets SideLeft |} |}.

(** The function under [SafeAreaInsetsContext.Consumer] in
    [renderTabBar]; [tabBar] defaults to [BottomTabBar]. *)
Definition renderTabBar (props : Props) (insets : option EdgeInsets) : ReactNode :=
  nullish (tabBar props) BottomTabBar (tabBarProps props insets).

Definition setTabBarHeight (h : Q) (hooks : Hooks) : Hooks :=
  {| loaded := loaded hooks;
     previousRouteKeyRef := previousRouteKeyRef hooks;
     tabBarHeight := h;
     effectDeps := effectDeps hooks |}.

(** [detachInactiveScreens], with its default *)
Definition detachInactiveScreens_ (props : Props) : bool :=
  nullish (detachInactiveScreens props)
    match Platform_OS with
    | web | android | ios => true
    | _ => false
    end.

(** The interpolation that turns an animated value into an activity state *)
Definition activityInterpolation : InterpolationConfig :=
  {| inputRange := [0%Q; (1 - EPSILON)%Q; 1%Q];
     outputRange :=
       [STATE_TRANSITIONING_OR_BELOW_TOP;
        STATE_TRANSITIONING_OR_BELOW_TOP;
        STATE_INACTIVE];
     extrapolate := extend |}.

(** The callback of [routes.map] in the returned tree: [None] is the
    [null] it returns for a route whose screen is not rendered. *)
Definition renderRoute (props : Props) (loaded_ : list string) (tabBarHeight_ : Q)
    (tabAnims : gmap string AnimatedValue) (tabBarPosition_ : TabBarPosition)
    (r : Route) (i : nat) : completion (option MaybeScreenElement) :=
  descriptor ← defined (descriptors props !! key r);
  let opts := options descriptor in
  let lazy_ := nullish (lazy opts) true in
  let animation_ := nullish (animation opts) AnimNone in
  let sceneStyleInterpolator_ :=
    nullish_or (sceneStyleInterpolator opts)
      (preset_sceneStyleInterpolator (NAMED_TRANSITIONS_PRESETS animation_)) in
  let isFocused := bool_decide (index (state props) = i) in
  if truthy (unmountOnBlur opts) && negb isFocused then Normal None
  else if lazy_
          && negb (includes loaded_ (key r))
          && negb isFocused
          && negb (includes (preloadedRouteKeys (state props)) (key r))
  then Normal None
  else
    let sceneStyle := f ← sceneStyleInterpolator_; f (tabAnims !! key r) in
    let animationEnabled := hasAnimation opts in
    activityState ←
      (if isFocused then Normal (ActivityNumber STATE_ON_TOP)
       else if animationEnabled then
         v ← defined (tabAnims !! key r);
         Normal (ActivityInterpolation v activityInterpolation)
       else Normal (ActivityNumber STATE_INACTIVE));
    let headerProps :=
      {| hp_layout := initialMetrics_frame;
         hp_route := route descriptor;
         hp_navigation := navigation descriptor;
         hp_options := opts |} in
    Normal (Some
      {| element_key := key r;
         zIndex := if isFocused then 0%Z else (-1)%Z;
         active := activityState;
         enabled := detachInactiveScreens_ props;
         element_freezeOnBlur := freezeOnBlur opts;
         heightContext :=
           match tabBarPosition_ with
           | PosBottom => tabBarHeight_
           | _ => 0%Q
           end;
         screen :=
           {| focused := isFocused;
              screen_route := route descriptor;
              screen_navigation := navigation descriptor;
              screen_headerShown := headerShown opts;
              screen_headerStatusBarHeight := headerStatusBarHeight opts;
              screen_headerTransparent := headerTransparent opts;
              screen_header :=
                match header opts with
                | Some h => callHeader h headerProps
                | None =>
                    Header opts (hp_layout headerProps)
                      (getHeaderTitle opts (name r))
                end;
              screen_style :=
                (sceneContainerStyle props,
                 if animationEnabled then sceneStyle else None);
              screen_children := render descriptor () |} |}).

(** [routes.some((route) => hasAnimation(descriptors[route.key].options))] *)
Definition anyAnimation (props : Props) : completion bool :=
  some (λ r, d ← defined (descriptors props !! key r);
             Normal (hasAnimation (options d)))
       (routes (state props)).

(** One execution of the body of [BottomTabView]. *)
Definition BottomTabView (props : Props) (hooks : Hooks) : completion RenderPass :=
  focusedRoute ← defined (routes (state props) !! index (state props));
  let focusedRouteKey := key focusedRoute in
  let setLoaded_ :=
    if negb (includes (loaded hooks) focusedRouteKey)
    then Some (loaded hooks ++ [focusedRouteKey])
    else None in
  let tabAnims := useAnimatedHashMap (state props) in
  animated_ ← anyAnimation props;
  let hasTwoStates_ := negb animated_ in
  focusedDescriptor ← defined (descriptors props !! focusedRouteKey);
  let tabBarPosition_ :=
    nullish (tabBarPosition (options focusedDescriptor)) PosBottom in
  let bar :=
    {| heightCallback := setTabBarHeight;
       consumer := renderTabBar props |} in
  children_ ←
    mapWithIndex
      (renderRoute props (loaded hooks) (tabBarHeight hooks) tabAnims tabBarPosition_)
      0 (routes (state props));
  Normal
    {| output :=
         {| root_style :=
              match tabBarPosition_ with
              | PosLeft => Some styles_left
              | PosRight => Some styles_right
              | _ => None
              end;
            tabBarBefore :=
              match tabBarPosition_ with
              | PosTop => Some bar
              | _ => None
              end;
            screens :=
              {| container_enabled := detachInactiveScreens_ props;
                 hasTwoStates := hasTwoStates_;
                 container_style := styles_screens;
                 children := children_ |};
            tabBarAfter :=
              match tabBarPosition_ with
              | PosTop => None
              | _ => Some bar
              end |};
       setLoaded := setLoaded_ |}.

(** The initial values of the hooks, computed by the first execution. *)
Definition initialHooks (props : Props) : completion Hooks :=
  focusedRoute ← defined (routes (state props) !! index (state props));
  let focusedRouteKey := key focusedRoute in
  focusedDescriptor ← defined (descriptors props !! focusedRouteKey);
  Normal
    {| loaded := [focusedRouteKey];
       previousRouteKeyRef := focusedRouteKey;
       tabBarHeight :=
         getTabBarHeight
           {| h_state := state props;
              h_descriptors := descriptors props;
              h_dimensions := initialMetrics_frame;
              h_layout := {| width := width initialMetrics_frame; height := 0%Q |};
              h_insets :=
                (* [{ ...initialMetrics.insets, ...props.safeAreaInsets }] *)
                nullish (safeAreaInsets props) ∅ ∪ insets_object initialMetrics_insets;
              h_style := tabBarStyle (options focusedDescriptor) |};
       effectDeps := None |}.

(** ** The effect that starts the transition *)

(** The callback of [routes.map] in [animateToIndex] *)
Definition animateRoute (props : Props) (tabAnims : gmap string AnimatedValue)
    (previousRouteKey focusedRouteKey : string) (r : Route) (i : nat)
  : completion CompositeAnimation :=
  descriptor ← defined (descriptors props !! key r);
  let opts := options descriptor in
  let animation_ := nullish (animation opts) AnimNone in
  let transitionSpec_ :=
    nullish_or (transitionSpec opts)
      (preset_transitionSpec (NAMED_TRANSITIONS_PRESETS animation_)) in
  let spec :=
    if negb (bool_decide (key r = previousRouteKey))
       && negb (bool_decide (key r = focusedRouteKey))
    then Some none_transitionSpec
    else transitionSpec_ in
  let spec := nullish spec none_transitionSpec in
  let toValue :=
    if bool_decide (i = index (state props)) then 0%Q
    else if bool_decide (index (state props) ≤ i) then 1%Q
    else (-1)%Q in
  Normal
    {| driver := spec_animation spec;
       animated := tabAnims !! key r;
       animation_config :=
         <["useNativeDriver" := VBoolean true]>
           (<["toValue" := VNumber toValue]> (spec_config spec)) |}.

(** [animateToIndex]: the animations handed to [Animated.parallel] and
    started.  Every element built by [animateRoute] is an object, so
    [filter(Boolean)] keeps them all. *)
Definition animateToIndex (props : Props) (tabAnims : gmap string AnimatedValue)
    (previousRouteKey focusedRouteKey : string)
  : completion (list CompositeAnimation) :=
  mapWithIndex (animateRoute props tabAnims previousRouteKey focusedRouteKey)
    0 (routes (state props)).

(** The body of the effect, for the props of the render that scheduled it. *)
Definition effect (props : Props) (hooks : Hooks)
  : completion (list CompositeAnimation * Hooks) :=
  focusedRoute ← defined (routes (state props) !! index (state props));
  let focusedRouteKey := key focusedRoute in
  let previousRouteKey := previousRouteKeyRef hooks in
  let hooks' :=
    {| loaded := loaded hooks;
       previousRouteKeyRef := focusedRouteKey;
       tabBarHeight := tabBarHeight hooks;
       effectDeps := effectDeps hooks |} in
  animations ←
    animateToIndex props (useAnimatedHashMap (state props))
      previousRouteKey focusedRouteKey;
  Normal (animations, hooks').

(** ** React around the view *)

(** The references of the three objects among the dependencies of the
    effect; React compares these by identity. *)
Record Identities : Type := {
  id_descriptors : positive;
  id_routes : positive;
  id_tabAnims : positive;
}.

(** [[descriptors, focusedRouteKey, state.index, state.routes, tabAnims]] *)
Definition currentDeps (props : Props) (ids : Identities) (focusedRouteKey : string)
  : EffectDeps :=
  {| dep_descriptors := id_descriptors ids;
     dep_focusedRouteKey := focusedRouteKey;
     dep_index := index (state props);
     dep_routes := id_routes ids;
     dep_tabAnims := id_tabAnims ids |}.

Definition sameDeps (a b : EffectDeps) : bool :=
  bool_decide (dep_descriptors a = dep_descriptors b)
  && bool_decide (dep_focusedRouteKey a = dep_focusedRouteKey b)
  && bool_decide (dep_index a = dep_index b)
  && bool_decide (dep_routes a = dep_routes b)
  && bool_decide (dep_tabAnims a = dep_tabAnims b).

(** Whether the effect runs after a render: always after the first one,
    afterwards when a dependency changed. *)
Definition effectRuns (last : option EffectDeps) (now : EffectDeps) : bool :=
  match last with
  | None => true
  | Some d => negb (sameDeps d now)
  end.

Definition RERENDER_LIMIT : nat := 25.

(** A state update made while rendering discards the output and runs
    the body again with the new state. *)
Fixpoint renderLoop (fuel : nat) (props : Props) (hooks : Hooks)
  : completion (Rendered * Hooks) :=
  match fuel with
  | O => Throw TooManyRerenders
  | S fuel' =>
      pass ← BottomTabView props hooks;
      match setLoaded pass with
      | None => Normal (output pass, hooks)
      | Some loaded' =>
          renderLoop fuel' props
            {| loaded := loaded';
               previousRouteKeyRef := previousRouteKeyRef hooks;
               tabBarHeight := tabBarHeight hooks;
               effectDeps := effectDeps hooks |}
      end
  end.

(** After the render is committed: run the effect if it is due. *)
Definition commit (props : Props) (ids : Identities) (hooks : Hooks)
  : completion (option (list CompositeAnimation) * Hooks) :=
  focusedRoute ← defined (routes (state props) !! index (state props));
  let now := currentDeps props ids (key focusedRoute) in
  if effectRuns (effectDeps hooks) now then
    '(animations, hooks') ← effect props hooks;
    Normal
      (Some animations,
       {| loaded := loaded hooks';
          previousRouteKeyRef := previousRouteKeyRef hooks';
          tabBarHeight := tabBarHeight hooks';
          effectDeps := Some now |})
  else Normal (None, hooks).

(** What one render and its commit produce. *)
Record Update : Type := {
  tree : Rendered;
  started : option (list CompositeAnimation);
  hooks_after : Hooks;
}.

Definition update (props : Props) (ids : Identities) (hooks : Hooks)
  : completion Update :=
  '(tree_, hooks1) ← renderLoop RERENDER_LIMIT props hooks;
  '(started_, hooks2) ← commit props ids hooks1;
  Normal {| tree := tree_; started := started_; hooks_after := hooks2 |}.

Definition mount (props : Props) (ids : Identities) : completion Update :=
  hooks ← initialHooks props;
  update props ids hooks.

(** What happens to a mounted view: it is rendered again with new props,
    or the tab bar reports its height through the callback. *)
Inductive Event : Type :=
  | Rerender (props : Props) (ids : Identities)
  | TabBarHeight (h : Q).

Definition step (hooks : Hooks) (e : Event) : completion Hooks :=
  match e with
  | Rerender props ids => u ← update props ids hooks; Normal (hooks_after u)
  | TabBarHeight h => Normal (setTabBarHeight h hooks)
  end.

Fixpoint run (hooks : Hooks) (events : list Event) : completion Hooks :=
  match events with
  | [] => Normal hooks
  | e :: events' => hooks' ← step hooks e; run hooks' events'
  end.

(** The props of the latest render among [events], [props0] being those
    of the mount. *)
Definition lastRendered (props0 : Props) (events : list Event) : Props :=
  foldl (λ p e, match e with Rerender p' _ => p' | TabBarHeight _ => p end)
    props0 events.

End Model.

(** ** A navigator with four tabs

    The tabs of the example app ([TabStack], [TabChat], [TabContacts],
    [TabAlbums]) over a host whose opaque values are strings. *)

Module Demo.

Definition types : HostTypes :=
  {| ViewStyle := string;
     ReactNode := string;
     AnimatedValue := string;
     NavigationHelpers := unit;
     NavigationProp := unit;
     HeaderRenderer := string |}.

#[local] Existing Instance types.

Definition host : Host :=
  {| FadeTransition :=
       {| preset_sceneStyleInterpolator := Some (λ _, Some "forFade");
          preset_transitionSpec :=
            Some {| spec_animation := timing;
                    spec_config := {["duration" := VNumber 150%Q]} |} |};
     ShiftTransition :=
       {| preset_sceneStyleInterpolator := Some (λ _, Some "forShift");
          preset_transitionSpec :=
            Some {| spec_animation := timing;
                    spec_config := {["duration" := VNumber 150%Q]} |} |};
     BottomTabBar := λ _, "BottomTabBar";
     getTabBarHeight := λ _, 49%Q;
     Header := λ _ _ title, title;
     getHeaderTitle := λ _ n, n;
     callHeader := λ h _, h;
     useAnimatedHashMap := λ st, list_to_map ((λ r, (key r, key r)) <$> routes st);
     Platform_OS := ios;
     initialMetrics_frame := {| width := 390%Q; height := 844%Q |};
     initialMetrics_insets :=
       {| inset_top := 47%Q; inset_right := 0%Q;
          inset_bottom := 34%Q; inset_left := 0%Q |} |}.

#[local] Existing Instance host.

Definition blank : BottomTabNavigationOptions :=
  {| lazy := None; unmountOnBlur := None; animation := None;
     transitionSpec := None; sceneStyleInterpolator := None;
     tabBarPosition := None; tabBarStyle := None; freezeOnBlur := None;
     header := None; headerShown := None; headerStatusBarHeight := None;
     headerTransparent := None |}.

(** Options as [blank], with the four fields the tabs differ in. *)
Definition tabOptions (unmount : option bool) (anim : option TabAnimationName)
    (spec : option TransitionSpec) (pos : option TabBarPosition)
  : BottomTabNavigationOptions :=
  {| lazy := None; unmountOnBlur := unmount; animation := anim;
     transitionSpec := spec; sceneStyleInterpolator := None;
     tabBarPosition := pos; tabBarStyle := None; freezeOnBlur := None;
     header := None; headerShown := None; headerStatusBarHeight := None;
     headerTransparent := None |}.

Definition tabStack : Route := {| key := "TabStack-a"; name := "TabStack" |}.
Definition tabChat : Route := {| key := "TabChat-b"; name := "TabChat" |}.
Definition tabContacts : Route := {| key := "TabContacts-c"; name := "TabContacts" |}.
Definition tabAlbums : Route := {| key := "TabAlbums-d"; name := "TabAlbums" |}.

Definition describe (r : Route) (o : BottomTabNavigationOptions) : Descriptor :=
  {| options := o; route := r; navigation := (); render := λ _, name r |}.

Definition springSpec : TransitionSpec :=
  {| spec_animation := spring;
     spec_config := {["stiffness" := VNumber 1000%Q]} |}.

(** [TabStack] shifts, [TabChat] has a transition spec of its own,
    [TabContacts] unmounts on blur and [TabAlbums] sets nothing. *)
Definition tabDescriptors (pos : option TabBarPosition) : gmap string Descriptor :=
  <[key tabStack := describe tabStack (tabOptions None (Some AnimShift) None pos)]>
  (<[key tabChat := describe tabChat (tabOptions None None (Some springSpec) pos)]>
  (<[key tabContacts := describe tabContacts (tabOptions (Some true) (Some AnimNone) None pos)]>
  (<[key tabAlbums := describe tabAlbums (tabOptions None None None pos)]> ∅))).

(** The navigator focused on the tab at [i], with the tab bar at [pos]. *)
Definition props (i : nat) (pos : option TabBarPosition) : Props :=
  {| tabBar := None;
     state :=
       {| index := i;
          routes := [tabStack; tabChat; tabContacts; tabAlbums];
          preloadedRouteKeys := [] |};
     helpers := ();
     descriptors := tabDescriptors pos;
     safeAreaInsets := Some {["bottom" := Some 20%Q; "top" := None]};
     detachInactiveScreens := None;
     sceneContainerStyle := None |}.

Definition ids : Identities :=
  {| id_descriptors := 1%positive; id_routes := 1%positive; id_tabAnims := 1%positive |}.

(** The hooks of a view that was mounted on [TabChat]. *)
Definition hooks : Hooks :=
  {| loaded := [key tabChat];
     previousRouteKeyRef := key tabChat;
     tabBarHeight := 49%Q;
     effectDeps :=
       Some {| dep_descriptors := 1%positive;
               dep_focusedRouteKey := key tabChat;
               dep_index := 1;
               dep_routes := 1%positive;
               dep_tabAnims := 1%positive |} |}.

(** The hooks once every tab has been visited. *)
Definition visited : Hooks :=
  {| loaded := [key tabChat; key tabStack; key tabContacts; key tabAlbums];
     previousRouteKeyRef := key tabChat;
     tabBarHeight := 49%Q;
     effectDeps := effectDeps hooks |}.

(** A navigator of two tabs, neither of them animated. *)
Definition still : Props :=
  {| tabBar := None;
     state :=
       {| index := 1;
          routes := [tabStack; tabChat];
          preloadedRouteKeys := [] |};
     helpers := ();
     descriptors :=
       <[key tabStack := describe tabStack (tabOptions None (Some AnimNone) None None)]>
       (<[key tabChat := describe tabChat (tabOptions None None (Some springSpec) None)]> ∅);
     safeAreaInsets := None;
     detachInactiveScreens := Some false;
     sceneContainerStyle := None |}.

End Demo.

(** ** The renders a view went through *)

Section History.

Context `{Host}.

(** The props of every render so far, oldest first: those of the mount,
    then those of each [Rerender] among [events]. *)
Definition renderedProps (props0 : Props) (events : list Event) : list Props :=
  props0 ::
  omap (λ e, match e with Rerender p _ => Some p | TabBarHeight _ => None end)
    events.

(** The key a render focuses, when its index is in range. *)
Definition focusedKey (props : Props) : option string :=
  key <$> routes (state props) !! index (state props).

End History.

(** ** The number behind an activity state *)

Section Activity.

Context `{HostTypes}.

(** The number the host reads from an [active] prop when each animated
    value [v] currently holds [progress v]: the number itself, or what
    the interpolation makes of the animated value. *)
Definition activityValue (progress : AnimatedValue → Q) (a : ActivityState)
  : option Q :=
  match a with
  | ActivityNumber n => Some n
  | ActivityInterpolation v c => interpolate c (progress v)
  end.

End Activity.

(** ** The example screen [BottomTabs]

    The part of the example that decides something: the state it
    keeps, the screen options it derives from the window width and that
    state, the action sheet that picks the animation and the button
    that toggles the compact sidebar. *)

Module BottomTabs.

#[global] Instance TabAnimationName_eq_dec : EqDecision TabAnimationName.
Proof. solve_decision. Defined.

(** The string each animation name stands for. *)
Definition animationName (a : TabAnimationName) : string :=
  match a with
  | AnimNone => "none"
  | AnimFade => "fade"
  | AnimShift => "shift"
  end.

(** [const animations = ['none', 'fade', 'shift']] *)
Definition animations : list TabAnimationName := [AnimNone; AnimFade; AnimShift].

(** ['below-icon' | 'beside-icon'] *)
Inductive LabelPosition : Type := BelowIcon | BesideIcon.

(** The two [useState] cells.  [animation] is read back from
    [animations[index]], which is [undefined] past the end. *)
Record State : Type := {
  st_animation : option TabAnimationName;    (* [animation] *)
  st_isCompact : bool;                       (* [isCompact] *)
}.

Definition initialState : State :=
  {| st_animation := Some AnimNone; st_isCompact := false |}.

(** [dimensions.width >= 1024] *)
Definition isLargeScreen (width : Q) : bool := Qle_bool 1024 width.

(** What [screenOptions] returns, with the icon of its [headerRight]
    button. *)
Record ScreenOptions : Type := {
  so_headerRightIcon : string;
  so_tabBarPosition : TabBarPosition;
  so_tabBarLabelPosition : option LabelPosition;
  so_animation : option TabAnimationName;
}.

Definition screenOptions (width : Q) (st : State) : ScreenOptions :=
  {| so_headerRightIcon :=
       if bool_decide (st_animation st = Some AnimNone)
       then "heart-outline" else "heart";
     so_tabBarPosition := if isLargeScreen width then PosLeft else PosBottom;
     so_tabBarLabelPosition :=
       if isLargeScreen width && st_isCompact st then Some BelowIcon else None;
     so_animation := st_animation st |}.

(** The [options] handed to [showActionSheetWithOptions] *)
Definition actionSheetOptions (st : State) : list string :=
  (λ option,
     if bool_decide (Some option = st_animation st)
     then animationName option +:+ " (current)"
     else animationName option) <$> animations.

(** The callback of the action sheet: [index] is [undefined] when the
    sheet is dismissed. *)
Definition onActionSheetSelect (index_ : option nat) (st : State) : State :=
  match index_ with
  | Some i =>
      {| st_animation := animations !! i; st_isCompact := st_isCompact st |}
  | None => st
  end.

(** [position] in the [tabBarStyle] of [TabAlbums] *)
Definition albumsTabBarPosition (width : Q) : option string :=
  if isLargeScreen width then None else Some "absolute".

(** The button under the navigator: [None] when it is not rendered,
    else the name of its icon. *)
Definition compactToggle (width : Q) (st : State) : option string :=
  if isLargeScreen width then
    Some (if st_isCompact st then "chevron-double-right"
          else "chevron-double-left")
  else None.

(** [onPress] of that button *)
Definition onCompactToggle (st : State) : State :=
  {| st_animation := st_animation st; st_isCompact := negb (st_isCompact st) |}.

End BottomTabs.

(** ** Properties *)

Section Properties.

Context `{Host}.

Lemma bind_Normal {A B} (m : completion A) (f : A → completion B) (b : B) :
  m ≫= f = Normal b ↔ ∃ a, m = Normal a ∧ f a = Normal b.
Proof.
  destruct m as [a|e]; simpl; split.
  - intros E. exists a. by split.
  - by intros (a' & [= <-] & E).
  - discriminate.
  - by intros (a' & [=] & _).
Qed.

Lemma Normal_bind {A B} (a : A) (f : A → completion B) : Normal a ≫= f = f a.
Proof. reflexivity. Qed.

Lemma defined_Normal {A} (o : option A) (a : A) :
  defined o = Normal a ↔ o = Some a.
Proof. destruct o; simpl; split; congruence. Qed.

Lemma includes_true (l : list string) (k : string) :
  includes l k = true ↔ k ∈ l.
Proof. unfold includes. by rewrite bool_decide_eq_true. Qed.

Lemma includes_false (l : list string) (k : string) :
  includes l k = false ↔ k ∉ l.
Proof. unfold includes. by rewrite bool_decide_eq_false. Qed.

(** [map] keeps the positions: the element at [j] is the callback's
    result for the element at [j], called with the index [i + j]. *)
Lemma mapWithIndex_lookup {A B} (f : A → nat → completion B) (l : list A) :
  ∀ i ys, mapWithIndex f i l = Normal ys →
  length ys = length l ∧
  ∀ j x, l !! j = Some x → ∃ y, f x (i + j) = Normal y ∧ ys !! j = Some y.
Proof.
  induction l as [|x l IH]; intros i ys E; simpl in E.
  - injection E as <-. split; [done|]. intros j x Hj. by destruct j.
  - apply bind_Normal in E as (y & Ey & E).
    apply bind_Normal in E as (ys' & Eys & [= <-]).
    destruct (IH _ _ Eys) as [Hlen Hall]. split; [simpl; by rewrite Hlen|].
    intros [|j] x' Hj; simpl in Hj.
    + injection Hj as <-. exists y. by rewrite Nat.add_0_r.
    + destruct (Hall j x' Hj) as (y' & Ey' & Hy').
      exists y'. split; [|done].
      by replace (i + S j) with (S i + j) by lia.
Qed.

Lemma mapWithIndex_total {A B} (f : A → nat → completion B) (l : list A) :
  ∀ i, (∀ j x, l !! j = Some x → ∃ y, f x (i + j) = Normal y) →
  ∃ ys, mapWithIndex f i l = Normal ys.
Proof.
  induction l as [|x l IH]; intros i Hall; simpl.
  - by eexists.
  - destruct (Hall 0 x eq_refl) as (y & Ey). rewrite Nat.add_0_r in Ey.
    rewrite Ey. simpl.
    destruct (IH (S i)) as (ys & Eys).
    { intros j x' Hj. destruct (Hall (S j) x' Hj) as (y' & Ey').
      exists y'. by replace (S i + j) with (i + S j) by lia. }
    rewrite Eys. simpl. by eexists.
Qed.

(** [some] answers [false] only after the predicate answered [false] on
    every element, and [true] only after it answered [true] on one. *)
Lemma some_false {A} (p : A → completion bool) (l : list A) :
  some p l = Normal false ↔ ∀ x, x ∈ l → p x = Normal false.
Proof.
  induction l as [|x l IH]; simpl.
  - split; [|done]. intros _ x Hx. by apply elem_of_nil in Hx.
  - destruct (p x) as [[|]|e] eqn:E.
    + split; [done|]. intros Hall. specialize (Hall x (list_elem_of_here _ _)).
      congruence.
    + rewrite IH. split.
      * intros Hall y Hy. apply elem_of_cons in Hy as [->|Hy]; auto.
      * intros Hall y Hy. apply Hall. by apply list_elem_of_further.
    + split; [done|]. intros Hall. specialize (Hall x (list_elem_of_here _ _)).
      congruence.
Qed.

Lemma some_true {A} (p : A → completion bool) (l : list A) :
  some p l = Normal true → ∃ x, x ∈ l ∧ p x = Normal true.
Proof.
  induction l as [|x l IH]; simpl; [done|].
  destruct (p x) as [[|]|e] eqn:E; [|intros E'|done].
  - intros _. exists x. split; [apply list_elem_of_here|done].
  - destruct (IH E') as (y & Hy & Ey). exists y.
    split; [by apply list_elem_of_further|done].
Qed.

(** *** One route of the returned tree *)

(** The two conditions under which the callback returns [null], and
    what the element is otherwise. *)
Lemma renderRoute_inv (props : Props) (l : list string) (h : Q)
    (anims : gmap string AnimatedValue) (pos : TabBarPosition)
    (r : Route) (i : nat) (o : option MaybeScreenElement) :
  renderRoute props l h anims pos r i = Normal o →
  ∃ d, descriptors props !! key r = Some d ∧
    let isFocused := bool_decide (index (state props) = i) in
    if truthy (unmountOnBlur (options d)) && negb isFocused
       || nullish (lazy (options d)) true
          && negb (includes l (key r))
          && negb isFocused
          && negb (includes (preloadedRouteKeys (state props)) (key r))
    then o = None
    else ∃ el, o = Some el ∧
      element_key el = key r ∧
      focused (screen el) = isFocused ∧
      heightContext el = match pos with PosBottom => h | _ => 0%Q end ∧
      if isFocused then active el = ActivityNumber STATE_ON_TOP
      else if hasAnimation (options d) then
        ∃ v, anims !! key r = Some v ∧
             active el = ActivityInterpolation v activityInterpolation
      else active el = ActivityNumber STATE_INACTIVE.
Proof.
  unfold renderRoute. intros E.
  apply bind_Normal in E as (d & Ed & E). apply defined_Normal in Ed.
  exists d. split; [done|]. cbv zeta.
  destruct (truthy (unmountOnBlur (options d))
            && negb (bool_decide (index (state props) = i))) eqn:G1; simpl.
  { by injection E as <-. }
  destruct (nullish (lazy (options d)) true && negb (includes l (key r))
            && negb (bool_decide (index (state props) = i))
            && negb (includes (preloadedRouteKeys (state props)) (key r))) eqn:G2.
  { by injection E as <-. }
  apply bind_Normal in E as (act & Eact & [= <-]).
  eexists. split; [done|]. simpl. repeat split.
  destruct (bool_decide (index (state props) = i)).
  - by injection Eact as <-.
  - destruct (hasAnimation (options d)).
    + apply bind_Normal in Eact as (v & Ev & [= <-]).
      apply defined_Normal in Ev. by exists v.
    + by injection Eact as <-.
Qed.

(** *** One execution of the body *)

Lemma BottomTabView_inv (props : Props) (hooks : Hooks) (pass : RenderPass) :
  BottomTabView props hooks = Normal pass →
  ∃ focusedRoute animated_ focusedDescriptor,
    routes (state props) !! index (state props) = Some focusedRoute ∧
    anyAnimation props = Normal animated_ ∧
    descriptors props !! key focusedRoute = Some focusedDescriptor ∧
    let pos := nullish (tabBarPosition (options focusedDescriptor)) PosBottom in
    let bar := {| heightCallback := setTabBarHeight;
                  consumer := renderTabBar props |} in
    mapWithIndex
      (renderRoute props (loaded hooks) (tabBarHeight hooks)
         (useAnimatedHashMap (state props)) pos)
      0 (routes (state props))
    = Normal (children (screens (output pass))) ∧
    hasTwoStates (screens (output pass)) = negb animated_ ∧
    root_style (output pass)
    = match pos with
      | PosLeft => Some styles_left
      | PosRight => Some styles_right
      | _ => None
      end ∧
    tabBarBefore (output pass)
    = match pos with PosTop => Some bar | _ => None end ∧
    tabBarAfter (output pass)
    = match pos with PosTop => None | _ => Some bar end ∧
    setLoaded pass
    = if includes (loaded hooks) (key focusedRoute) then None
      else Some (loaded hooks ++ [key focusedRoute]).
Proof.
  unfold BottomTabView. intros E.
  apply bind_Normal in E as (fr & Efr & E). apply defined_Normal in Efr.
  apply bind_Normal in E as (an & Ean & E).
  apply bind_Normal in E as (fd & Efd & E). apply defined_Normal in Efd.
  apply bind_Normal in E as (ch & Ech & [= <-]).
  exists fr, an, fd. simpl. repeat split; try done.
  by destruct (includes (loaded hooks) (key fr)).
Qed.

(** Every route has its slot among the children of the screen
    container, and the slot holds what [renderRoute] returned. *)
Lemma BottomTabView_child (props : Props) (hooks : Hooks) (pass : RenderPass)
    (i : nat) (r : Route) :
  BottomTabView props hooks = Normal pass →
  routes (state props) !! i = Some r →
  ∃ focusedRoute focusedDescriptor o,
    routes (state props) !! index (state props) = Some focusedRoute ∧
    descriptors props !! key focusedRoute = Some focusedDescriptor ∧
    children (screens (output pass)) !! i = Some o ∧
    renderRoute props (loaded hooks) (tabBarHeight hooks)
      (useAnimatedHashMap (state props))
      (nullish (tabBarPosition (options focusedDescriptor)) PosBottom) r i
    = Normal o.
Proof.
  intros E Hr.
  destruct (BottomTabView_inv _ _ _ E) as (fr & an & fd & Hfr & _ & Hfd & Hch & _).
  cbv zeta in Hch. apply mapWithIndex_lookup in Hch as [_ Hall].
  destruct (Hall i r Hr) as (o & Eo & Ho).
  exists fr, fd, o. by repeat split.
Qed.


(** *** Lazy loading and unmounting on blur *)

(** A route that [unmountOnBlur] does not take out and that was loaded
    has its screen rendered. *)
Lemma loaded_route_rendered (props : Props) (hooks : Hooks) (pass : RenderPass)
    (i : nat) (r : Route) (d : Descriptor) :
  BottomTabView props hooks = Normal pass →
  routes (state props) !! i = Some r →
  descriptors props !! key r = Some d →
  unmountOnBlur (options d) ≠ Some true →
  key r ∈ loaded hooks →
  ∃ el, children (screens (output pass)) !! i = Some (Some el).
Proof.
  intros E Hr Hd Hu Hk.
  destruct (BottomTabView_child _ _ _ _ _ E Hr) as (fr & fd & o & _ & _ & Ho & Eo).
  apply renderRoute_inv in Eo as (d' & Hd' & Hcase). cbv zeta in Hcase.
  rewrite Hd in Hd'. injection Hd' as <-.
  assert (Hg1 : truthy (unmountOnBlur (options d)) = false).
  { unfold truthy. by destruct (unmountOnBlur (options d)) as [[|]|]. }
  apply includes_true in Hk. rewrite Hg1, Hk in Hcase. simpl in Hcase.
  rewrite andb_false_r in Hcase. simpl in Hcase.
  destruct Hcase as (el & -> & _). by exists el.
Qed.

(** C1.  For every route of [state.routes], in any execution of the body
    that returns: if [lazy] (default [true]) holds, the key is not in
    [loaded], the route is not the focused one and the key is not in
    [state.preloadedRouteKeys], nothing is rendered for the route; and
    if one of these fails, and the route is not one that [unmountOnBlur]
    takes out (set and not focused), its screen is rendered.  So, apart
    from the routes [unmountOnBlur] takes out, nothing is rendered
    exactly when the four conditions hold. *)
Theorem lazy_route_deferred (props : Props) (hooks : Hooks) (pass : RenderPass)
    (i : nat) (r : Route) :
  BottomTabView props hooks = Normal pass →
  routes (state props) !! i = Some r →
  ∃ d, descriptors props !! key r = Some d ∧
    let deferred :=
      nullish (lazy (options d)) true = true
      ∧ (key r ∉ loaded hooks)
      ∧ index (state props) ≠ i
      ∧ (key r ∉ preloadedRouteKeys (state props)) in
    let unmounted :=
      unmountOnBlur (options d) = Some true ∧ index (state props) ≠ i in
    (deferred → children (screens (output pass)) !! i = Some None) ∧
    (¬ deferred → ¬ unmounted →
       ∃ el, children (screens (output pass)) !! i = Some (Some el)) ∧
    (¬ unmounted →
       (children (screens (output pass)) !! i = Some None ↔ deferred)).
Proof.
  intros E Hr.
  destruct (BottomTabView_child _ _ _ _ _ E Hr) as (fr & fd & o & _ & _ & Ho & Eo).
  apply renderRoute_inv in Eo as (d & Hd & Hcase). cbv zeta in Hcase.
  exists d. split; [done|]. cbv zeta. rewrite Ho.
  set (g1 := truthy (unmountOnBlur (options d))
             && negb (bool_decide (index (state props) = i))) in *.
  set (g2 := nullish (lazy (options d)) true
             && negb (includes (loaded hooks) (key r))
             && negb (bool_decide (index (state props) = i))
             && negb (includes (preloadedRouteKeys (state props)) (key r))) in *.
  assert (Hunm : g1 = true
                 ↔ unmountOnBlur (options d) = Some true ∧ index (state props) ≠ i).
  { subst g1. rewrite andb_true_iff, negb_true_iff, bool_decide_eq_false.
    unfold truthy. destruct (unmountOnBlur (options d)) as [[|]|]; simpl;
      intuition congruence. }
  assert (Hdef : g2 = true
                 ↔ nullish (lazy (options d)) true = true
                   ∧ (key r ∉ loaded hooks)
                   ∧ index (state props) ≠ i
                   ∧ (key r ∉ preloadedRouteKeys (state props))).
  { subst g2.
    rewrite !andb_true_iff, !negb_true_iff, !includes_false, bool_decide_eq_false.
    tauto. }
  clearbody g1 g2. rewrite <- Hunm, <- Hdef. clear Hunm Hdef.
  destruct g1, g2; simpl in Hcase;
    [subst o | subst o | subst o | destruct Hcase as (el & -> & _)];
    (split; [|split]); try done; try tauto.
  intros _ _. by exists el.
Qed.

(** C5.  A route whose options set [unmountOnBlur] to [true] has nothing
    rendered whenever it is not the focused route, and the focused
    route's screen is rendered whatever its [unmountOnBlur] (and
    whatever its [lazy]). *)
Theorem unmountOnBlur_unmounts (props : Props) (hooks : Hooks) (pass : RenderPass)
    (i : nat) (r : Route) :
  BottomTabView props hooks = Normal pass →
  routes (state props) !! i = Some r →
  ∃ d, descriptors props !! key r = Some d ∧
    (unmountOnBlur (options d) = Some true → index (state props) ≠ i →
       children (screens (output pass)) !! i = Some None) ∧
    (index (state props) = i →
       ∃ el, children (screens (output pass)) !! i = Some (Some el)
             ∧ element_key el = key r
             ∧ focused (screen el) = true).
Proof.
  intros E Hr.
  destruct (BottomTabView_child _ _ _ _ _ E Hr) as (fr & fd & o & _ & _ & Ho & Eo).
  apply renderRoute_inv in Eo as (d & Hd & Hcase). cbv zeta in Hcase.
  exists d. split; [done|]. split.
  - intros Hu Hi. rewrite Hu in Hcase. simpl in Hcase.
    rewrite bool_decide_eq_false_2 in Hcase by done. simpl in Hcase. by subst o.
  - intros Hi. rewrite (bool_decide_eq_true_2 _ Hi) in Hcase. simpl in Hcase.
    rewrite !andb_false_r in Hcase. simpl in Hcase.
    destruct Hcase as (el & -> & Hk & Hf & _). by exists el.
Qed.

(** *** The activity state *)

(** The interpolation of the activity state, evaluated: 1 up to
    [1 - 1e-5], and from there on the line through 1 at [1 - 1e-5] and
    0 at 1. *)
Lemma activityInterpolation_eval (x : Q) :
  ∃ y, interpolate activityInterpolation x = Some y ∧
    ((x <= 1 - (1 # 100000))%Q → (y == 1)%Q) ∧
    ((1 - (1 # 100000) <= x)%Q → (y == (1 - x) * 100000)%Q).
Proof.
  unfold interpolate. simpl.
  destruct (Qle_bool x (1 - EPSILON)) eqn:Hx.
  - eexists. split; [reflexivity|]. apply Qle_bool_iff in Hx.
    unfold EPSILON in Hx. unfold interpolateSegment. simpl. split.
    + intros _. reflexivity.
    + intros Hge. unfold STATE_TRANSITIONING_OR_BELOW_TOP. lra.
  - eexists. split; [reflexivity|].
    assert (Hlt : ¬ (x <= 1 - (1 # 100000))%Q).
    { intros Hle. apply Qle_bool_iff in Hle. unfold EPSILON in Hx. congruence. }
    unfold interpolateSegment. simpl. split.
    + intros Hle. done.
    + intros _.
      unfold STATE_INACTIVE, STATE_TRANSITIONING_OR_BELOW_TOP, EPSILON, Qdiv.
      let c := eval vm_compute in (/ (1 - (1 - (1 # 100000))))%Q in
      change (/ (1 - (1 - (1 # 100000))))%Q with c.
      lra.
Qed.

(** C3 (as amended).  The [active] prop of every rendered [MaybeScreen]
    is built from the three constants 0, 1 and 2: the focused route
    gets the number 2; an unfocused route whose options disable
    animation gets the number 0; an unfocused animated route gets the
    interpolation of its animated value with input range
    [[0, 1 - 1e-5, 1]], output range [[1, 1, 0]] and [extend].  Read as
    a number, that interpolation is 1 for every value up to [1 - 1e-5]
    and 0 at 1, and between and beyond them it follows the line through
    those two points: strictly between 0 and 1 inside, below 0 past 1.
    So the flag is 0, 1 or 2 except while an animated value is past
    [1 - 1e-5] and not at 1. *)
Theorem activity_state_value (props : Props) (hooks : Hooks)
    (pass : RenderPass) (i : nat) (r : Route) (el : MaybeScreenElement)
    (progress : AnimatedValue → Q) :
  BottomTabView props hooks = Normal pass →
  routes (state props) !! i = Some r →
  children (screens (output pass)) !! i = Some (Some el) →
  ∃ d, descriptors props !! key r = Some d ∧
    (index (state props) = i →
       active el = ActivityNumber STATE_ON_TOP
       ∧ activityValue progress (active el) = Some 2%Q) ∧
    (index (state props) ≠ i → hasAnimation (options d) = false →
       active el = ActivityNumber STATE_INACTIVE
       ∧ activityValue progress (active el) = Some 0%Q) ∧
    (index (state props) ≠ i → hasAnimation (options d) = true →
       ∃ v y,
         useAnimatedHashMap (state props) !! key r = Some v ∧
         active el = ActivityInterpolation v activityInterpolation ∧
         activityValue progress (active el) = Some y ∧
         ((progress v <= 1 - (1 # 100000))%Q → (y == 1)%Q) ∧
         ((progress v == 1)%Q → (y == 0)%Q) ∧
         ((1 - (1 # 100000) < progress v)%Q → (progress v < 1)%Q →
            (0 < y)%Q ∧ (y < 1)%Q) ∧
         ((1 < progress v)%Q → (y < 0)%Q) ∧
         ((1 - (1 # 100000) <= progress v)%Q →
            (y == (1 - progress v) * 100000)%Q)) ∧
    (STATE_INACTIVE = 0%Q ∧ STATE_TRANSITIONING_OR_BELOW_TOP = 1%Q
     ∧ STATE_ON_TOP = 2%Q) ∧
    inputRange activityInterpolation = [0%Q; (1 - (1 # 100000))%Q; 1%Q] ∧
    outputRange activityInterpolation = [1%Q; 1%Q; 0%Q] ∧
    extrapolate activityInterpolation = extend ∧
    (∀ o, o ∈ outputRange activityInterpolation → o = 1%Q ∨ o = 0%Q).
Proof.
  intros E Hr Hel.
  destruct (BottomTabView_child _ _ _ _ _ E Hr) as (fr & fd & o & _ & _ & Ho & Eo).
  rewrite Hel in Ho. injection Ho as <-.
  apply renderRoute_inv in Eo as (d & Hd & Hcase). cbv zeta in Hcase.
  exists d. split; [done|].
  destruct (_ || _) in Hcase; [done|].
  destruct Hcase as (el2 & [= <-] & _ & _ & _ & Hact).
  split_and!; try done.
  - intros Hi. rewrite (bool_decide_eq_true_2 _ Hi) in Hact. by rewrite Hact.
  - intros Hi Hno. rewrite (bool_decide_eq_false_2 _ Hi), Hno in Hact.
    by rewrite Hact.
  - intros Hi Hyes. rewrite (bool_decide_eq_false_2 _ Hi), Hyes in Hact.
    destruct Hact as (v & Hv & Hact).
    destruct (activityInterpolation_eval (progress v)) as (y & Hy & Hlow & Hhigh).
    exists v, y. rewrite Hact. simpl. split_and!; try done.
    + intros Hone. rewrite Hhigh by lra. lra.
    + intros Hlo Hhi. assert (Hyv := Hhigh ltac:(lra)). split; lra.
    + intros Hpast. assert (Hyv := Hhigh ltac:(lra)). lra.
  - intros o Ho. simpl in Ho.
    unfold STATE_TRANSITIONING_OR_BELOW_TOP, STATE_INACTIVE in Ho.
    repeat (apply elem_of_cons in Ho as [->|Ho]; [auto|]).
    by apply elem_of_nil in Ho.
Qed.

(** What the interpolation of C3 evaluates to: 1 everywhere up to
    [1 - 1e-5], so on all of [[0, 1 - 1e-5]], and 0 at 1. *)
Lemma activityInterpolation_values :
  (∀ x, (x <= 1 - EPSILON)%Q →
     ∃ y, interpolate activityInterpolation x = Some y ∧ (y == 1)%Q) ∧
  (∃ y, interpolate activityInterpolation 1%Q = Some y ∧ (y == 0)%Q).
Proof.
  split.
  - intros x Hhi. unfold interpolate. simpl.
    apply Qle_bool_iff in Hhi. rewrite Hhi.
    eexists. split; [reflexivity|].
    unfold interpolateSegment. simpl. reflexivity.
  - eexists. split; [reflexivity|]. reflexivity.
Qed.

(** *** Where the tab bar goes *)

(** C6.  With [pos] the focused route's [tabBarPosition] (['bottom']
    when unset): the tab bar is the child before the screen container
    exactly when [pos] is ['top'] and the child after it otherwise; the
    root's style is [row-reverse] for ['left'], [row] for ['right'] and
    [null] for ['top'] and ['bottom']. *)
Theorem tabBar_placement (props : Props) (hooks : Hooks) (pass : RenderPass) :
  BottomTabView props hooks = Normal pass →
  ∃ focusedRoute focusedDescriptor bar,
    routes (state props) !! index (state props) = Some focusedRoute ∧
    descriptors props !! key focusedRoute = Some focusedDescriptor ∧
    consumer bar = renderTabBar props ∧
    let pos := nullish (tabBarPosition (options focusedDescriptor)) PosBottom in
    (tabBarPosition (options focusedDescriptor) = None → pos = PosBottom) ∧
    (pos = PosTop →
       rootChildren (output pass)
       = [Some (TabBarChild bar); Some (ScreensChild (screens (output pass))); None]) ∧
    (pos ≠ PosTop →
       rootChildren (output pass)
       = [None; Some (ScreensChild (screens (output pass))); Some (TabBarChild bar)]) ∧
    (pos = PosLeft →
       root_style (output pass) = Some styles_left
       ∧ flexDirection styles_left = row_reverse) ∧
    (pos = PosRight →
       root_style (output pass) = Some styles_right
       ∧ flexDirection styles_right = row) ∧
    (pos = PosTop ∨ pos = PosBottom → root_style (output pass) = None).
Proof.
  intros E.
  destruct (BottomTabView_inv _ _ _ E)
    as (fr & an & fd & Hfr & _ & Hfd & _ & _ & Hstyle & Hbefore & Hafter & _).
  cbv zeta in *.
  exists fr, fd, {| heightCallback := setTabBarHeight; consumer := renderTabBar props |}.
  split_and!; try done.
  - by intros ->.
  - intros Hp. unfold rootChildren. by rewrite Hbefore, Hafter, Hp.
  - intros Hp. unfold rootChildren. rewrite Hbefore, Hafter.
    by destruct (nullish _ _).
  - intros Hp. by rewrite Hstyle, Hp.
  - intros Hp. by rewrite Hstyle, Hp.
  - intros [Hp|Hp]; by rewrite Hstyle, Hp.
Qed.

(** *** The height of the tab bar *)

Lemma initialHooks_inv (props : Props) (hooks0 : Hooks) :
  initialHooks props = Normal hooks0 →
  ∃ focusedRoute focusedDescriptor,
    routes (state props) !! index (state props) = Some focusedRoute ∧
    descriptors props !! key focusedRoute = Some focusedDescriptor ∧
    loaded hooks0 = [key focusedRoute] ∧
    previousRouteKeyRef hooks0 = key focusedRoute ∧
    effectDeps hooks0 = None ∧
    tabBarHeight hooks0
    = getTabBarHeight
        {| h_state := state props;
           h_descriptors := descriptors props;
           h_dimensions := initialMetrics_frame;
           h_layout := {| width := width initialMetrics_frame; height := 0%Q |};
           h_insets :=
             nullish (safeAreaInsets props) ∅ ∪ insets_object initialMetrics_insets;
           h_style := tabBarStyle (options focusedDescriptor) |}.
Proof.
  unfold initialHooks. intros E.
  apply bind_Normal in E as (fr & Efr & E). apply defined_Normal in Efr.
  apply bind_Normal in E as (fd & Efd & [= <-]). apply defined_Normal in Efd.
  by exists fr, fd.
Qed.

Lemma initialHooks_returns (props : Props) (r : Route) (d : Descriptor) :
  routes (state props) !! index (state props) = Some r →
  descriptors props !! key r = Some d →
  ∃ hooks0, initialHooks props = Normal hooks0.
Proof.
  intros Hr Hd. unfold initialHooks. rewrite Hr. simpl. rewrite Hd. simpl.
  by eexists.
Qed.


(** *** The insets given to the tab bar *)

(** C8.  Each of the four sides of the [insets] the tab bar receives is
    the side of the [safeAreaInsets] prop when that is defined, else
    the side of the safe-area context when the context is defined, else
    0 (whatever the other sides and sources hold). *)
Theorem insets_precedence (props : Props) (ctx : option EdgeInsets) (s : Side) :
  renderTabBar props ctx = nullish (tabBar props) BottomTabBar (tabBarProps props ctx) ∧
  let propSide := m ← safeAreaInsets props; mjoin (m !! side_key s) in
  let got := edge (bar_insets (tabBarProps props ctx)) s in
  (∀ v, propSide = Some v → got = v) ∧
  (∀ e, propSide = None → ctx = Some e → got = edge e s) ∧
  (propSide = None → ctx = None → got = 0%Q).
Proof.
  split; [done|]. cbv zeta.
  assert (Hgot : edge (bar_insets (tabBarProps props ctx)) s
                 = resolveInset (safeAreaInsets props) ctx s) by by destruct s.
  rewrite Hgot. unfold resolveInset. split_and!.
  - by intros v ->.
  - by intros e -> ->.
  - by intros -> ->.
Qed.

(** The prop side of C8 is defined exactly when the prop is an object
    that holds a number under the side's name. *)
Lemma insets_prop_side (props : Props) (s : Side) (v : Q) :
  (m ← safeAreaInsets props; mjoin (m !! side_key s)) = Some v
  ↔ ∃ m, safeAreaInsets props = Some m ∧ m !! side_key s = Some (Some v).
Proof.
  destruct (safeAreaInsets props) as [m|]; simpl.
  - split.
    + intros Hv. exists m. split; [done|].
      by destruct (m !! side_key s) as [[w|]|]; simplify_eq/=.
    + intros (m' & [= <-] & ->). done.
  - split; [done|]. by intros (m & [=] & _).
Qed.

(** *** Animated or not *)

(** C9.  [hasAnimation] answers [true] exactly when [animation] is set
    to something other than ['none'], or neither [animation] nor
    [transitionSpec] is set.  So options that only set a
    [transitionSpec] are not animated, and options that set nothing
    are. *)
Theorem hasAnimation_spec (o : BottomTabNavigationOptions) :
  (hasAnimation o = true
   ↔ (∃ a, animation o = Some a ∧ a ≠ AnimNone)
     ∨ (animation o = None ∧ transitionSpec o = None)) ∧
  (∀ spec, animation o = None → transitionSpec o = Some spec →
     hasAnimation o = false) ∧
  (animation o = None → transitionSpec o = None → hasAnimation o = true).
Proof.
  unfold hasAnimation.
  destruct (animation o) as [[| |]|], (transitionSpec o) as [spec|];
    split_and!; try done; try (intros; congruence);
    split; try done; try (intros [(a & [= <-] & Ha)|[[=] _]]; done);
    try (intros [(a & [=] & _)|[_ [=]]]); intros _; eauto.
  all: left; eexists; split; [done|discriminate].
Qed.

(** C10.  The screen container is in two-state mode exactly when no
    route of [state.routes] has options for which [hasAnimation] holds;
    one animated route makes [hasTwoStates] false. *)
Theorem hasTwoStates_spec (props : Props) (hooks : Hooks) (pass : RenderPass) :
  BottomTabView props hooks = Normal pass →
  (hasTwoStates (screens (output pass)) = true
   ↔ ∀ r, r ∈ routes (state props) →
       ∃ d, descriptors props !! key r = Some d ∧ hasAnimation (options d) = false) ∧
  (∀ r d, r ∈ routes (state props) → descriptors props !! key r = Some d →
     hasAnimation (options d) = true →
     hasTwoStates (screens (output pass)) = false).
Proof.
  intros E.
  destruct (BottomTabView_inv _ _ _ E) as (fr & an & fd & _ & Han & _ & _ & Htwo & _).
  rewrite Htwo. unfold anyAnimation in Han.
  assert (Hiff : negb an = true
                 ↔ ∀ r, r ∈ routes (state props) →
                     ∃ d, descriptors props !! key r = Some d
                          ∧ hasAnimation (options d) = false).
  { rewrite negb_true_iff. split.
    - intros ->. intros r Hr. eapply some_false in Han; [|done].
      apply bind_Normal in Han as (d & Hd & [= Hno]). apply defined_Normal in Hd.
      by exists d.
    - intros Hall. destruct an; [|done]. exfalso.
      apply some_true in Han as (r & Hr & Hp).
      destruct (Hall r Hr) as (d & Hd & Hno).
      rewrite Hd in Hp. simpl in Hp. congruence. }
  split; [done|].
  intros r d Hr Hd Hyes. apply not_true_is_false. intros Htrue.
  destruct Hiff as [Hall _].
  destruct (Hall Htrue r Hr) as (d' & Hd' & Hno). congruence.
Qed.

(** *** Renders, commits and the hooks between them *)

Lemma renderLoop_S (n : nat) (props : Props) (hooks : Hooks) :
  renderLoop (S n) props hooks
  = pass ← BottomTabView props hooks;
    match setLoaded pass with
    | None => Normal (output pass, hooks)
    | Some loaded' =>
        renderLoop n props
          {| loaded := loaded';
             previousRouteKeyRef := previousRouteKeyRef hooks;
             tabBarHeight := tabBarHeight hooks;
             effectDeps := effectDeps hooks |}
    end.
Proof. reflexivity. Qed.

(** The render loop settles after at most one more execution: the
    hooks it leaves hold the focused key in [loaded], appended if it
    was absent, and the tree is what the body returns for those hooks
    without asking for another update. *)
Lemma renderLoop_inv (n : nat) (props : Props) (hooks hooks' : Hooks) (t : Rendered) :
  renderLoop (S (S n)) props hooks = Normal (t, hooks') →
  ∃ focusedRoute,
    routes (state props) !! index (state props) = Some focusedRoute ∧
    loaded hooks'
    = (if includes (loaded hooks) (key focusedRoute) then loaded hooks
       else loaded hooks ++ [key focusedRoute]) ∧
    previousRouteKeyRef hooks' = previousRouteKeyRef hooks ∧
    tabBarHeight hooks' = tabBarHeight hooks ∧
    effectDeps hooks' = effectDeps hooks ∧
    BottomTabView props hooks' = Normal {| output := t; setLoaded := None |}.
Proof.
  rewrite renderLoop_S. intros E.
  apply bind_Normal in E as (pass & Epass & E).
  destruct (BottomTabView_inv _ _ _ Epass)
    as (fr & _ & _ & Hfr & _ & _ & _ & _ & _ & _ & _ & Hset).
  exists fr. split; [done|].
  destruct (includes (loaded hooks) (key fr)) eqn:Hin; rewrite Hset in E.
  - injection E as <- <-. split_and!; try done.
    rewrite Epass. destruct pass as [out set]. simpl in *. by subst set.
  - rewrite renderLoop_S in E.
    apply bind_Normal in E as (pass2 & Epass2 & E).
    destruct (BottomTabView_inv _ _ _ Epass2)
      as (fr2 & _ & _ & Hfr2 & _ & _ & _ & _ & _ & _ & _ & Hset2).
    rewrite Hfr in Hfr2. injection Hfr2 as <-. simpl in Hset2.
    assert (Hnow : includes (loaded hooks ++ [key fr]) (key fr) = true).
    { apply includes_true. apply elem_of_app. right. apply list_elem_of_here. }
    rewrite Hnow in Hset2. rewrite Hset2 in E. injection E as <- <-.
    split_and!; try done.
    rewrite Epass2. destruct pass2 as [out set]. simpl in *. by subst set.
Qed.

Lemma animateRoute_inv (props : Props) (anims : gmap string AnimatedValue)
    (previousRouteKey focusedRouteKey : string) (r : Route) (i : nat)
    (a : CompositeAnimation) :
  animateRoute props anims previousRouteKey focusedRouteKey r i = Normal a →
  ∃ d, descriptors props !! key r = Some d ∧
    let own :=
      nullish
        (nullish_or (transitionSpec (options d))
           (preset_transitionSpec
              (NAMED_TRANSITIONS_PRESETS (nullish (animation (options d)) AnimNone))))
        none_transitionSpec in
    let spec :=
      if decide (key r ≠ previousRouteKey ∧ key r ≠ focusedRouteKey)
      then none_transitionSpec else own in
    let toValue :=
      if decide (i = index (state props)) then 0%Q
      else if decide (index (state props) < i) then 1%Q else (-1)%Q in
    a = {| driver := spec_animation spec;
           animated := anims !! key r;
           animation_config :=
             <["useNativeDriver" := VBoolean true]>
               (<["toValue" := VNumber toValue]> (spec_config spec)) |}.
Proof.
  unfold animateRoute. intros E.
  apply bind_Normal in E as (d & Hd & [= <-]). apply defined_Normal in Hd.
  exists d. split; [done|]. cbv zeta.
  assert (Hspec :
    nullish
      (if negb (bool_decide (key r = previousRouteKey))
          && negb (bool_decide (key r = focusedRouteKey))
       then Some none_transitionSpec
       else nullish_or (transitionSpec (options d))
              (preset_transitionSpec
                 (NAMED_TRANSITIONS_PRESETS (nullish (animation (options d)) AnimNone))))
      none_transitionSpec
    = if decide (key r ≠ previousRouteKey ∧ key r ≠ focusedRouteKey)
      then none_transitionSpec
      else nullish
             (nullish_or (transitionSpec (options d))
                (preset_transitionSpec
                   (NAMED_TRANSITIONS_PRESETS (nullish (animation (options d)) AnimNone))))
             none_transitionSpec).
  { repeat case_bool_decide; simpl; case_decide; try done; tauto. }
  rewrite Hspec.
  assert (Hto :
    (if bool_decide (i = index (state props)) then 0%Q
     else if bool_decide (index (state props) ≤ i) then 1%Q else (-1)%Q)
    = (if decide (i = index (state props)) then 0%Q
       else if decide (index (state props) < i) then 1%Q else (-1)%Q)).
  { repeat case_bool_decide; repeat case_decide; try done; lia. }
  by rewrite Hto.
Qed.

(** What a commit does: nothing when the effect is not due, and
    otherwise it starts [animateToIndex] from the key held in the ref
    and stores the focused key there. *)
Lemma commit_inv (props : Props) (ids : Identities) (hooks hooks' : Hooks)
    (st : option (list CompositeAnimation)) :
  commit props ids hooks = Normal (st, hooks') →
  ∃ focusedRoute,
    routes (state props) !! index (state props) = Some focusedRoute ∧
    loaded hooks' = loaded hooks ∧
    tabBarHeight hooks' = tabBarHeight hooks ∧
    if effectRuns (effectDeps hooks) (currentDeps props ids (key focusedRoute))
    then
      ∃ animations,
        st = Some animations ∧
        animateToIndex props (useAnimatedHashMap (state props))
          (previousRouteKeyRef hooks) (key focusedRoute)
        = Normal animations ∧
        previousRouteKeyRef hooks' = key focusedRoute ∧
        effectDeps hooks' = Some (currentDeps props ids (key focusedRoute))
    else st = None ∧ hooks' = hooks.
Proof.
  unfold commit. intros E.
  apply bind_Normal in E as (fr & Hfr & E). apply defined_Normal in Hfr.
  exists fr. split; [done|].
  destruct (effectRuns _ _).
  - apply bind_Normal in E as ([animations hooks1] & Eeff & [= <- <-]).
    unfold effect in Eeff. rewrite Hfr in Eeff. simpl in Eeff.
    apply bind_Normal in Eeff as (animations' & Eanim & [= <- <-]).
    simpl. split_and!; try done. by exists animations'.
  - by injection E as <- <-.
Qed.

Lemma update_inv (props : Props) (ids : Identities) (hooks : Hooks) (u : Update) :
  update props ids hooks = Normal u →
  ∃ hooks1,
    renderLoop RERENDER_LIMIT props hooks = Normal (tree u, hooks1) ∧
    commit props ids hooks1 = Normal (started u, hooks_after u).
Proof.
  unfold update. intros E.
  apply bind_Normal in E as ([t hooks1] & Eloop & E).
  apply bind_Normal in E as ([st hooks2] & Ecommit & [= <-]).
  by exists hooks1.
Qed.

Lemma effectRuns_false (last : option EffectDeps) (now : EffectDeps) :
  effectRuns last now = false →
  ∃ d, last = Some d ∧ dep_focusedRouteKey d = dep_focusedRouteKey now.
Proof.
  destruct last as [d|]; [|done]. simpl. rewrite negb_false_iff.
  unfold sameDeps. rewrite !andb_true_iff, !bool_decide_eq_true.
  intros ((((_ & Hk) & _) & _) & _). by exists d.
Qed.

Lemma effectRuns_focus_changed (d now : EffectDeps) :
  dep_focusedRouteKey d ≠ dep_focusedRouteKey now →
  effectRuns (Some d) now = true.
Proof.
  intros Hne. simpl. rewrite negb_true_iff. unfold sameDeps.
  rewrite (bool_decide_eq_false_2 _ Hne). by rewrite andb_false_r.
Qed.

(** One render with its commit, seen from the hooks. *)
Lemma update_hooks (props : Props) (ids : Identities) (hooks : Hooks) (u : Update) :
  update props ids hooks = Normal u →
  ∃ focusedRoute hooks1,
    routes (state props) !! index (state props) = Some focusedRoute ∧
    BottomTabView props hooks1 = Normal {| output := tree u; setLoaded := None |} ∧
    loaded hooks1 = loaded (hooks_after u) ∧
    tabBarHeight hooks1 = tabBarHeight hooks ∧
    loaded (hooks_after u)
    = (if includes (loaded hooks) (key focusedRoute) then loaded hooks
       else loaded hooks ++ [key focusedRoute]) ∧
    tabBarHeight (hooks_after u) = tabBarHeight hooks ∧
    if effectRuns (effectDeps hooks) (currentDeps props ids (key focusedRoute))
    then
      ∃ animations,
        started u = Some animations ∧
        animateToIndex props (useAnimatedHashMap (state props))
          (previousRouteKeyRef hooks) (key focusedRoute)
        = Normal animations ∧
        previousRouteKeyRef (hooks_after u) = key focusedRoute ∧
        effectDeps (hooks_after u) = Some (currentDeps props ids (key focusedRoute))
    else
      started u = None ∧
      previousRouteKeyRef (hooks_after u) = previousRouteKeyRef hooks ∧
      effectDeps (hooks_after u) = effectDeps hooks.
Proof.
  intros E. apply update_inv in E as (hooks1 & Eloop & Ecommit).
  apply renderLoop_inv in Eloop as (fr & Hfr & Hl & Hp & Hh & Hd & Ebody).
  apply commit_inv in Ecommit as (fr' & Hfr' & Hl' & Hh' & Heff).
  rewrite Hfr in Hfr'. injection Hfr' as <-.
  exists fr, hooks1. rewrite Hd, Hp in Heff.
  split_and!; try done; try congruence.
  destruct (effectRuns _ _).
  - destruct Heff as (an & -> & Han & Hp' & Hd'). by exists an.
  - destruct Heff as (-> & ->). by rewrite Hp, Hd.
Qed.

(** After a render and its commit, the ref and the stored dependencies
    both hold the key of the route that render focused. *)
Lemma update_tracks (props : Props) (ids : Identities) (hooks : Hooks) (u : Update) :
  (∀ last, effectDeps hooks = Some last →
     dep_focusedRouteKey last = previousRouteKeyRef hooks) →
  update props ids hooks = Normal u →
  ∃ focusedRoute last,
    routes (state props) !! index (state props) = Some focusedRoute ∧
    previousRouteKeyRef (hooks_after u) = key focusedRoute ∧
    effectDeps (hooks_after u) = Some last ∧
    dep_focusedRouteKey last = key focusedRoute.
Proof.
  intros Hw E.
  destruct (update_hooks _ _ _ _ E) as (fr & _ & Hfr & _ & _ & _ & _ & _ & Heff).
  exists fr. destruct (effectRuns _ _) eqn:Hruns.
  - destruct Heff as (an & _ & _ & Hp & Hd). by eexists.
  - destruct Heff as (_ & Hp & Hd).
    apply effectRuns_false in Hruns as (d & Hlast & Hk). simpl in Hk.
    exists d. rewrite Hp, Hd, <- Hk, <- (Hw d Hlast). done.
Qed.

Lemma run_cons (hooks : Hooks) (e : Event) (events : list Event) :
  run hooks (e :: events) = hooks' ← step hooks e; run hooks' events.
Proof. reflexivity. Qed.

Lemma step_inv (hooks hooks' : Hooks) (e : Event) :
  step hooks e = Normal hooks' →
  match e with
  | Rerender props ids =>
      ∃ u, update props ids hooks = Normal u ∧ hooks' = hooks_after u
  | TabBarHeight h => hooks' = setTabBarHeight h hooks
  end.
Proof.
  destruct e as [props ids|h]; unfold step; intros E.
  - apply bind_Normal in E as (u & Eu & [= <-]). by exists u.
  - by injection E as <-.
Qed.

Lemma run_tracks (events : list Event) :
  ∀ (props : Props) (hooks hooks' : Hooks),
  (∃ focusedRoute last,
     routes (state props) !! index (state props) = Some focusedRoute ∧
     previousRouteKeyRef hooks = key focusedRoute ∧
     effectDeps hooks = Some last ∧
     dep_focusedRouteKey last = key focusedRoute) →
  run hooks events = Normal hooks' →
  ∃ focusedRoute last,
    routes (state (lastRendered props events))
      !! index (state (lastRendered props events)) = Some focusedRoute ∧
    previousRouteKeyRef hooks' = key focusedRoute ∧
    effectDeps hooks' = Some last ∧
    dep_focusedRouteKey last = key focusedRoute.
Proof.
  induction events as [|e events IH]; intros props hooks hooks' Hinv E.
  - by injection E as <-.
  - rewrite run_cons in E. apply bind_Normal in E as (hooks1 & Estep & E).
    apply step_inv in Estep. destruct e as [props1 ids1|h].
    + destruct Estep as (u & Eu & ->).
      change (lastRendered props (Rerender props1 ids1 :: events))
        with (lastRendered props1 events).
      apply (IH props1 (hooks_after u) hooks'); [|exact E].
      apply (update_tracks _ _ _ _) in Eu; [exact Eu|].
      destruct Hinv as (fr & last & _ & Hp & Hd & Hk).
      intros last' Hlast'. congruence.
    + subst hooks1.
      change (lastRendered props (TabBarHeight h :: events))
        with (lastRendered props events).
      apply (IH props (setTabBarHeight h hooks) hooks'); [|exact E]. exact Hinv.
Qed.

Lemma mount_tracks (props : Props) (ids : Identities) (u : Update) :
  mount props ids = Normal u →
  ∃ focusedRoute last,
    routes (state props) !! index (state props) = Some focusedRoute ∧
    previousRouteKeyRef (hooks_after u) = key focusedRoute ∧
    effectDeps (hooks_after u) = Some last ∧
    dep_focusedRouteKey last = key focusedRoute.
Proof.
  unfold mount. intros E. apply bind_Normal in E as (hooks0 & E0 & E).
  apply initialHooks_inv in E0 as (_ & _ & _ & _ & _ & _ & Hd & _).
  apply update_tracks in E; [done|]. intros last. by rewrite Hd.
Qed.

(** No event takes a key out of [loaded]. *)
Lemma run_loaded_prefix (events : list Event) :
  ∀ hooks hooks', run hooks events = Normal hooks' →
  loaded hooks `prefix_of` loaded hooks'.
Proof.
  induction events as [|e events IH]; intros hooks hooks' E.
  - by injection E as <-.
  - rewrite run_cons in E. apply bind_Normal in E as (hooks1 & Estep & E).
    etrans; [|apply IH; exact E]. apply step_inv in Estep.
    destruct e as [props ids|h].
    + destruct Estep as (u & Eu & ->).
      destruct (update_hooks _ _ _ _ Eu) as (fr & _ & _ & _ & _ & _ & Hl & _).
      rewrite Hl. destruct (includes _ _); [done|]. by apply prefix_app_r.
    + by subst hooks1.
Qed.

(** *** The loaded list *)

(** C2.  For a view that was mounted and then went through any events:
    [loaded] starts as the list holding the focused key; every render
    appends the focused key when it is absent and changes nothing
    otherwise, so a render only extends the list and leaves the focused
    key in it; no event removes a key.  Hence a route whose key is in
    [loaded], that is one that was focused at some render, keeps its
    screen in every later render unless its options set
    [unmountOnBlur]. *)
Theorem loaded_monotone (props0 : Props) (ids0 : Identities) (u0 : Update)
    (events : list Event) (hooks : Hooks) :
  mount props0 ids0 = Normal u0 →
  run (hooks_after u0) events = Normal hooks →
  (∃ focused0,
     routes (state props0) !! index (state props0) = Some focused0 ∧
     loaded (hooks_after u0) = [key focused0]) ∧
  loaded (hooks_after u0) `prefix_of` loaded hooks ∧
  (∀ props ids u, update props ids hooks = Normal u →
     ∃ focusedRoute,
       routes (state props) !! index (state props) = Some focusedRoute ∧
       loaded (hooks_after u)
       = (if includes (loaded hooks) (key focusedRoute) then loaded hooks
          else loaded hooks ++ [key focusedRoute]) ∧
       key focusedRoute ∈ loaded (hooks_after u) ∧
       loaded hooks `prefix_of` loaded (hooks_after u) ∧
       (∀ j r d,
          routes (state props) !! j = Some r →
          key r ∈ loaded hooks →
          descriptors props !! key r = Some d →
          unmountOnBlur (options d) ≠ Some true →
          ∃ el, children (screens (tree u)) !! j = Some (Some el))).
Proof.
  intros Emount Erun. split_and!.
  - unfold mount in Emount.
    apply bind_Normal in Emount as (hooks0 & E0 & Eu).
    apply initialHooks_inv in E0 as (fr & _ & Hfr & _ & Hl & _).
    destruct (update_hooks _ _ _ _ Eu) as (fr' & _ & Hfr' & _ & _ & _ & Hl' & _).
    rewrite Hfr in Hfr'. injection Hfr' as <-.
    exists fr. split; [done|]. rewrite Hl', Hl.
    assert (Hin : includes [key fr] (key fr) = true).
    { apply includes_true, list_elem_of_here. }
    by rewrite Hin.
  - by apply (run_loaded_prefix events).
  - intros props ids u Eu.
    destruct (update_hooks _ _ _ _ Eu)
      as (fr & hooks1 & Hfr & Ebody & Hl1 & _ & Hl & _).
    assert (Hpre : loaded hooks `prefix_of` loaded (hooks_after u)).
    { rewrite Hl. destruct (includes _ _); [done|]. by apply prefix_app_r. }
    exists fr. split_and!; try done.
    + rewrite Hl. destruct (includes _ _) eqn:Hin.
      * by apply includes_true.
      * apply elem_of_app. right. apply list_elem_of_here.
    + intros j r d Hr Hk Hd Hu.
      apply (loaded_route_rendered _ _ _ _ _ _ Ebody Hr Hd Hu).
      rewrite Hl1. destruct Hpre as [k ->]. apply elem_of_app. by left.
Qed.

(** *** The transition *)

(** What [animateToIndex] builds for each route. *)
Lemma animateToIndex_inv (props : Props) (anims : gmap string AnimatedValue)
    (previousRouteKey focusedRouteKey : string)
    (animations : list CompositeAnimation) :
  animateToIndex props anims previousRouteKey focusedRouteKey = Normal animations →
  length animations = length (routes (state props)) ∧
  ∀ i r, routes (state props) !! i = Some r →
    ∃ a, animations !! i = Some a ∧
      animateRoute props anims previousRouteKey focusedRouteKey r i = Normal a.
Proof.
  unfold animateToIndex. intros E.
  apply mapWithIndex_lookup in E as [Hlen Hall]. split; [done|].
  intros i r Hr. destruct (Hall i r Hr) as (a & Ea & Ha). by exists a.
Qed.

(** C4.  For a view that was mounted and went through any events, take
    the next render: with [previous] the route focused by the render
    before it and [focusedRoute] the one it focuses, a change of the
    focused key makes the commit start a parallel animation; and
    whenever the animation is started it has one animation per route,
    on that route's animated value, to 0 for the route at
    [state.index], to 1 for the routes after it and to -1 for the
    routes before it; a route that is neither [previous] nor
    [focusedRoute] is driven by [timing] with duration 0, and the other
    routes by their own transition spec. *)
Theorem transition_started (props0 : Props) (ids0 : Identities) (u0 : Update)
    (events : list Event) (hooks : Hooks)
    (props : Props) (ids : Identities) (u : Update) :
  mount props0 ids0 = Normal u0 →
  run (hooks_after u0) events = Normal hooks →
  update props ids hooks = Normal u →
  ∃ previous focusedRoute,
    routes (state (lastRendered props0 events))
      !! index (state (lastRendered props0 events)) = Some previous ∧
    routes (state props) !! index (state props) = Some focusedRoute ∧
    (key previous ≠ key focusedRoute → is_Some (started u)) ∧
    (∀ animations, started u = Some animations →
       length animations = length (routes (state props)) ∧
       ∀ i r, routes (state props) !! i = Some r →
         ∃ a d,
           animations !! i = Some a ∧
           descriptors props !! key r = Some d ∧
           animated a = useAnimatedHashMap (state props) !! key r ∧
           animation_config a !! "useNativeDriver" = Some (VBoolean true) ∧
           (i = index (state props) →
              animation_config a !! "toValue" = Some (VNumber 0%Q)) ∧
           (index (state props) < i →
              animation_config a !! "toValue" = Some (VNumber 1%Q)) ∧
           (i < index (state props) →
              animation_config a !! "toValue" = Some (VNumber (-1)%Q)) ∧
           (key r ≠ key previous → key r ≠ key focusedRoute →
              driver a = timing ∧
              ∃ toValue,
                animation_config a
                = <["useNativeDriver" := VBoolean true]>
                    (<["toValue" := VNumber toValue]>
                       {["duration" := VNumber 0%Q]})) ∧
           (key r = key previous ∨ key r = key focusedRoute →
              let own :=
                nullish
                  (nullish_or (transitionSpec (options d))
                     (preset_transitionSpec
                        (NAMED_TRANSITIONS_PRESETS
                           (nullish (animation (options d)) AnimNone))))
                  none_transitionSpec in
              driver a = spec_animation own ∧
              ∃ toValue,
                animation_config a
                = <["useNativeDriver" := VBoolean true]>
                    (<["toValue" := VNumber toValue]> (spec_config own)))).
Proof.
  intros Emount Erun Eu.
  destruct (run_tracks events props0 _ _ (mount_tracks _ _ _ Emount) Erun)
    as (previous & last & Hprev & Hp & Hd & Hk).
  destruct (update_hooks _ _ _ _ Eu) as (fr & _ & Hfr & _ & _ & _ & _ & _ & Heff).
  exists previous, fr. split_and!; try done.
  - intros Hne. rewrite Hd in Heff.
    rewrite effectRuns_focus_changed in Heff by (simpl; congruence).
    destruct Heff as (an & -> & _). by eexists.
  - intros animations Hst.
    destruct (effectRuns _ _); [|destruct Heff as (Hst' & _); congruence].
    destruct Heff as (an & Hst' & Han & _). rewrite Hst in Hst'. injection Hst' as <-.
    rewrite Hp in Han.
    apply animateToIndex_inv in Han as [Hlen Hall]. split; [done|].
    intros i r Hr. destruct (Hall i r Hr) as (a & Ha & Ea).
    apply animateRoute_inv in Ea as (d & Hdesc & ->). cbv zeta.
    eexists _, d. split_and!; try done; simpl.
    + by rewrite lookup_insert_eq.
    + intros ->. rewrite lookup_insert_ne by done. rewrite lookup_insert_eq.
      by rewrite decide_True.
    + intros Hi. rewrite lookup_insert_ne by done. rewrite lookup_insert_eq.
      rewrite decide_False by lia. by rewrite decide_True.
    + intros Hi. rewrite lookup_insert_ne by done. rewrite lookup_insert_eq.
      rewrite decide_False by lia. by rewrite decide_False by lia.
    + intros Hn1 Hn2. rewrite decide_True by done. split; [done|]. by eexists.
    + intros Hor. rewrite decide_False by tauto. split; [done|]. by eexists.
Qed.

(** *** The view returns *)

Lemma some_returns {A} (p : A → completion bool) (l : list A) :
  (∀ x, x ∈ l → ∃ b, p x = Normal b) → ∃ b, some p l = Normal b.
Proof.
  induction l as [|x l IH]; intros Hall; simpl; [by eexists|].
  destruct (Hall x (list_elem_of_here _ _)) as ([|] & ->); [by eexists|].
  apply IH. intros y Hy. apply Hall. by apply list_elem_of_further.
Qed.

Section Returns.

(** The navigator keeps its state in range and describes every route,
    and the hook keeps an animated value for every route. *)
Variable props : Props.
Hypothesis index_in_range : index (state props) < length (routes (state props)).
Hypothesis routes_described :
  ∀ r, r ∈ routes (state props) → is_Some (descriptors props !! key r).
Hypothesis routes_animated :
  ∀ r, r ∈ routes (state props) →
    is_Some (useAnimatedHashMap (state props) !! key r).

Lemma renderRoute_returns (l : list string) (h : Q) (pos : TabBarPosition)
    (r : Route) (i : nat) :
  r ∈ routes (state props) →
  ∃ o, renderRoute props l h (useAnimatedHashMap (state props)) pos r i = Normal o.
Proof.
  intros Hr. unfold renderRoute.
  destruct (routes_described r Hr) as [d ->].
  destruct (routes_animated r Hr) as [v ->]. simpl.
  destruct (_ && _); [by eexists|].
  destruct (_ && _); [by eexists|].
  destruct (bool_decide _); [by eexists|].
  destruct (hasAnimation _); by eexists.
Qed.

Lemma BottomTabView_returns (hooks : Hooks) :
  ∃ pass, BottomTabView props hooks = Normal pass.
Proof.
  unfold BottomTabView.
  destruct (lookup_lt_is_Some_2 _ _ index_in_range) as [fr Hfr].
  rewrite Hfr. simpl.
  destruct (some_returns
              (λ r, d ← defined (descriptors props !! key r);
                    Normal (hasAnimation (options d)))
              (routes (state props))) as [an Han].
  { intros r Hr. destruct (routes_described r Hr) as [d ->]. by eexists. }
  unfold anyAnimation. rewrite Han. simpl.
  destruct (routes_described fr) as [fd ->].
  { by eapply list_elem_of_lookup_2. }
  simpl.
  edestruct (mapWithIndex_total
               (renderRoute props (loaded hooks) (tabBarHeight hooks)
                  (useAnimatedHashMap (state props))
                  (nullish (tabBarPosition (options fd)) PosBottom))
               (routes (state props)) 0) as [ch ->].
  { intros j r Hr. apply renderRoute_returns. by eapply list_elem_of_lookup_2. }
  by eexists.
Qed.

(** The render loop never reaches React's limit: it ends after the
    first or the second execution of the body. *)
Lemma renderLoop_returns (hooks : Hooks) :
  ∃ t hooks', renderLoop RERENDER_LIMIT props hooks = Normal (t, hooks').
Proof.
  change RERENDER_LIMIT with (S (S 23)). rewrite renderLoop_S.
  destruct (BottomTabView_returns hooks) as [pass Epass].
  rewrite Epass, Normal_bind.
  destruct (setLoaded pass) as [l|] eqn:Hset; [|by eexists _, _].
  rewrite renderLoop_S.
  destruct (BottomTabView_returns
              {| loaded := l;
                 previousRouteKeyRef := previousRouteKeyRef hooks;
                 tabBarHeight := tabBarHeight hooks;
                 effectDeps := effectDeps hooks |}) as [pass2 Epass2].
  rewrite Epass2, Normal_bind.
  destruct (BottomTabView_inv _ _ _ Epass)
    as (fr & _ & _ & Hfr & _ & _ & _ & _ & _ & _ & _ & Hset1).
  destruct (BottomTabView_inv _ _ _ Epass2)
    as (fr2 & _ & _ & Hfr2 & _ & _ & _ & _ & _ & _ & _ & Hset2).
  rewrite Hfr in Hfr2. injection Hfr2 as <-. simpl in Hset2.
  rewrite Hset in Hset1. destruct (includes (loaded hooks) (key fr)); [done|].
  injection Hset1 as ->.
  assert (Hnow : includes (loaded hooks ++ [key fr]) (key fr) = true).
  { apply includes_true. apply elem_of_app. right. apply list_elem_of_here. }
  rewrite Hnow in Hset2. rewrite Hset2. by eexists _, _.
Qed.

Lemma animateToIndex_returns (previousRouteKey focusedRouteKey : string) :
  ∃ animations,
    animateToIndex props (useAnimatedHashMap (state props))
      previousRouteKey focusedRouteKey = Normal animations.
Proof.
  unfold animateToIndex. apply mapWithIndex_total.
  intros j r Hr. unfold animateRoute.
  destruct (routes_described r) as [d ->]; [by eapply list_elem_of_lookup_2|].
  by eexists.
Qed.

Lemma update_returns (ids : Identities) (hooks : Hooks) :
  ∃ u, update props ids hooks = Normal u.
Proof.
  unfold update.
  destruct (renderLoop_returns hooks) as (t & hooks1 & ->).
  rewrite Normal_bind. unfold commit.
  destruct (lookup_lt_is_Some_2 _ _ index_in_range) as [fr Hfr].
  rewrite Hfr. simpl.
  destruct (effectRuns _ _); [|by eexists].
  unfold effect. rewrite Hfr. simpl.
  destruct (animateToIndex_returns (previousRouteKeyRef hooks1) (key fr))
    as [an ->].
  by eexists.
Qed.

Lemma mount_returns (ids : Identities) :
  ∃ u, mount props ids = Normal u.
Proof.
  unfold mount.
  destruct (lookup_lt_is_Some_2 _ _ index_in_range) as [fr Hfr].
  destruct (routes_described fr) as [fd Hfd]; [by eapply list_elem_of_lookup_2|].
  destruct (initialHooks_returns _ _ _ Hfr Hfd) as [hooks0 ->].
  rewrite Normal_bind. apply update_returns.
Qed.

End Returns.

End Properties.

(** ** The properties on the four-tab navigator *)

(** [TabChat] is focused and is the only loaded tab: nothing is rendered
    for [TabStack], which is lazy and was never visited, and the screen
    of [TabChat] is. *)
Lemma lazy_route_deferred_witness :
  ∃ pass,
    @BottomTabView Demo.types Demo.host (Demo.props 1 None) Demo.hooks = Normal pass ∧
    routes (state (Demo.props 1 None)) !! 0 = Some Demo.tabStack ∧
    routes (state (Demo.props 1 None)) !! 1 = Some Demo.tabChat ∧
    children (screens (output pass)) !! 0 = Some None ∧
    ∃ el, children (screens (output pass)) !! 1 = Some (Some el).
Proof.
  eassert (E : @BottomTabView Demo.types Demo.host (Demo.props 1 None) Demo.hooks
               = Normal _) by (vm_compute; reflexivity).
  eexists. split; [exact E|]. split; [reflexivity|]. split; [reflexivity|].
  split.
  - destruct (lazy_route_deferred _ _ _ 0 Demo.tabStack E eq_refl)
      as (d & Hd & Hdefer & _).
    vm_compute in Hd. injection Hd as <-. apply Hdefer.
    split_and!; [reflexivity| |done|]; apply includes_false; reflexivity.
  - destruct (lazy_route_deferred _ _ _ 1 Demo.tabChat E eq_refl)
      as (d & Hd & _ & Hmount & _).
    vm_compute in Hd. injection Hd as <-. apply Hmount.
    + intros (_ & _ & Hi & _). by apply Hi.
    + intros [_ Hi]. by apply Hi.
Defined.

(** Every tab has been visited and [TabChat] is focused: [TabContacts]
    unmounts on blur, so nothing is rendered for it, and the screen of
    [TabChat] is rendered as the focused one. *)
Lemma unmountOnBlur_unmounts_witness :
  ∃ pass,
    @BottomTabView Demo.types Demo.host (Demo.props 1 None) Demo.visited = Normal pass ∧
    routes (state (Demo.props 1 None)) !! 2 = Some Demo.tabContacts ∧
    routes (state (Demo.props 1 None)) !! 1 = Some Demo.tabChat ∧
    children (screens (output pass)) !! 2 = Some None ∧
    ∃ el, children (screens (output pass)) !! 1 = Some (Some el)
          ∧ focused (screen el) = true.
Proof.
  eassert (E : @BottomTabView Demo.types Demo.host (Demo.props 1 None) Demo.visited
               = Normal _) by (vm_compute; reflexivity).
  eexists. split; [exact E|]. split; [reflexivity|]. split; [reflexivity|].
  split.
  - destruct (unmountOnBlur_unmounts _ _ _ 2 Demo.tabContacts E eq_refl)
      as (d & Hd & Hblur & _).
    vm_compute in Hd. injection Hd as <-. by apply Hblur.
  - destruct (unmountOnBlur_unmounts _ _ _ 1 Demo.tabChat E eq_refl)
      as (d & _ & _ & Hfocus).
    destruct (Hfocus eq_refl) as (el & Hel & _ & Hf). by exists el.
Defined.

(** Every tab has been visited and [TabChat] is focused: [TabStack]
    shifts, so its activity state is the interpolation of its animated
    value, and it reads 1 while that value is at most [1 - 1e-5]. *)
Lemma activity_state_value_witness :
  ∃ pass el y,
    @BottomTabView Demo.types Demo.host (Demo.props 1 None) Demo.visited = Normal pass ∧
    routes (state (Demo.props 1 None)) !! 0 = Some Demo.tabStack ∧
    children (screens (output pass)) !! 0 = Some (Some el) ∧
    active el = @ActivityInterpolation Demo.types "TabStack-a" activityInterpolation ∧
    activityValue (λ _, (1 # 2)%Q) (active el) = Some y ∧
    (y == 1)%Q.
Proof.
  eassert (E : @BottomTabView Demo.types Demo.host (Demo.props 1 None) Demo.visited
               = Normal _) by (vm_compute; reflexivity).
  match type of E with
  | _ = Normal ?p =>
      eassert (Hel : children (screens (output p)) !! 0 = Some (Some _))
        by (vm_compute; reflexivity)
  end.
  destruct (activity_state_value _ _ _ 0 Demo.tabStack _ (λ _, (1 # 2)%Q) E eq_refl Hel)
    as (d & Hd & _ & _ & Hanim & _).
  vm_compute in Hd. injection Hd as <-.
  destruct Hanim as (v & y & Hv & Hact & Hy & Hlow & _); [done|reflexivity|].
  vm_compute in Hv. injection Hv as <-.
  eexists _, _, y. split; [exact E|]. split; [reflexivity|]. split; [exact Hel|].
  split; [exact Hact|]. split; [exact Hy|]. apply Hlow. done.
Defined.

(** C3, counterexample to "taking only the values 0, 1, or 2": with
    every tab visited and [TabChat] focused, the activity state of
    [TabStack] reads 1/2 when its animated value is at 0.999995. *)
Lemma activity_state_not_three_valued :
  ∃ pass el y,
    @BottomTabView Demo.types Demo.host (Demo.props 1 None) Demo.visited = Normal pass ∧
    children (screens (output pass)) !! 0 = Some (Some el) ∧
    activityValue (λ _, (999995 # 1000000)%Q) (active el) = Some y ∧
    (y == 1 # 2)%Q ∧
    ¬ ((y == 0)%Q ∨ (y == 1)%Q ∨ (y == 2)%Q).
Proof.
  eexists _, _, _. split; [vm_compute; reflexivity|].
  split; [vm_compute; reflexivity|]. split; [vm_compute; reflexivity|].
  split; [reflexivity|]. intros [Hy|[Hy|Hy]]; vm_compute in Hy; discriminate.
Qed.

(** With the tab bar at the top, it comes before the screens. *)
Lemma tabBar_placement_witness :
  ∃ pass bar,
    @BottomTabView Demo.types Demo.host (Demo.props 1 (Some PosTop)) Demo.hooks
    = Normal pass ∧
    rootChildren (output pass)
    = [Some (TabBarChild bar); Some (ScreensChild (screens (output pass))); None].
Proof.
  eassert (E : @BottomTabView Demo.types Demo.host (Demo.props 1 (Some PosTop)) Demo.hooks
               = Normal _) by (vm_compute; reflexivity).
  destruct (tabBar_placement _ _ _ E)
    as (fr & fd & bar & Hfr & Hfd & _ & _ & Htop & _).
  vm_compute in Hfr. injection Hfr as <-.
  vm_compute in Hfd. injection Hfd as <-.
  eexists _, bar. split; [exact E|]. by apply Htop.
Defined.


(** [TabStack] shifts, so the container is not in two-state mode. *)
Lemma hasTwoStates_spec_witness :
  ∃ pass,
    @BottomTabView Demo.types Demo.host (Demo.props 1 None) Demo.hooks = Normal pass ∧
    hasTwoStates (screens (output pass)) = false.
Proof.
  eassert (E : @BottomTabView Demo.types Demo.host (Demo.props 1 None) Demo.hooks
               = Normal _) by (vm_compute; reflexivity).
  eexists. split; [exact E|].
  destruct (hasTwoStates_spec _ _ _ E) as [_ Hone].
  apply (Hone Demo.tabStack
           (Demo.describe Demo.tabStack
              (Demo.tabOptions None (Some AnimShift) None None))).
  - apply list_elem_of_here.
  - reflexivity.
  - reflexivity.
Defined.

(** Mounted on [TabChat], then [TabAlbums] is visited, the tab bar is
    measured and [TabStack] is visited: [loaded] still starts with
    [TabChat], and back on [TabChat] the screen of [TabAlbums] is still
    rendered. *)
Lemma loaded_monotone_witness :
  ∃ u0 hooks u el,
    @mount Demo.types Demo.host (Demo.props 1 None) Demo.ids = Normal u0 ∧
    @run Demo.types Demo.host (hooks_after u0)
      [Rerender (Demo.props 3 None) Demo.ids;
       TabBarHeight 60%Q;
       Rerender (Demo.props 0 None) Demo.ids] = Normal hooks ∧
    @update Demo.types Demo.host (Demo.props 1 None) Demo.ids hooks = Normal u ∧
    loaded (hooks_after u0) = ["TabChat-b"] ∧
    ["TabChat-b"] `prefix_of` loaded hooks ∧
    children (screens (tree u)) !! 3 = Some (Some el).
Proof.
  eassert (E0 : @mount Demo.types Demo.host (Demo.props 1 None) Demo.ids = Normal _)
    by (vm_compute; reflexivity).
  match type of E0 with _ = Normal ?x => set (u0 := x) in E0 end.
  eassert (E1 : @run Demo.types Demo.host (hooks_after u0)
                  [Rerender (Demo.props 3 None) Demo.ids;
                   TabBarHeight 60%Q;
                   Rerender (Demo.props 0 None) Demo.ids] = Normal _)
    by (vm_compute; reflexivity).
  match type of E1 with _ = Normal ?x => set (hooks := x) in E1 end.
  eassert (E2 : @update Demo.types Demo.host (Demo.props 1 None) Demo.ids hooks
                = Normal _)
    by (vm_compute; reflexivity).
  match type of E2 with _ = Normal ?x => set (u := x) in E2 end.
  destruct (loaded_monotone _ _ _ _ _ E0 E1) as ((fr0 & Hfr0 & Hl0) & Hpre & Hnext).
  vm_compute in Hfr0. injection Hfr0 as <-.
  destruct (Hnext _ _ _ E2) as (fr & _ & _ & _ & _ & Hkept).
  destruct (Hkept 3 Demo.tabAlbums
              (Demo.describe Demo.tabAlbums (Demo.tabOptions None None None None)))
    as (el & Hel); [reflexivity| |reflexivity|done|].
  { apply includes_true. reflexivity. }
  exists u0, hooks, u, el. split; [exact E0|]. split; [exact E1|]. split; [exact E2|].
  split; [exact Hl0|]. split; [|exact Hel].
  rewrite Hl0 in Hpre. exact Hpre.
Defined.

(** Mounted on [TabChat] and measured, then [TabAlbums] is focused: the
    commit starts four animations, and the one of [TabStack], which is
    neither the tab left nor the tab entered, is a timing of duration 0
    towards -1. *)
Lemma transition_started_witness :
  ∃ u0 hooks u animations a,
    @mount Demo.types Demo.host (Demo.props 1 None) Demo.ids = Normal u0 ∧
    @run Demo.types Demo.host (hooks_after u0) [TabBarHeight 60%Q] = Normal hooks ∧
    @update Demo.types Demo.host (Demo.props 3 None) Demo.ids hooks = Normal u ∧
    started u = Some animations ∧
    length animations = 4 ∧
    animations !! 0 = Some a ∧
    driver a = timing ∧
    animation_config a !! "toValue" = Some (VNumber (-1)%Q) ∧
    animation_config a
    = <["useNativeDriver" := VBoolean true]>
        (<["toValue" := VNumber (-1)%Q]> {["duration" := VNumber 0%Q]}).
Proof.
  eassert (E0 : @mount Demo.types Demo.host (Demo.props 1 None) Demo.ids = Normal _)
    by (vm_compute; reflexivity).
  match type of E0 with _ = Normal ?x => set (u0 := x) in E0 end.
  eassert (E1 : @run Demo.types Demo.host (hooks_after u0) [TabBarHeight 60%Q]
                = Normal _)
    by (vm_compute; reflexivity).
  match type of E1 with _ = Normal ?x => set (hooks := x) in E1 end.
  eassert (E2 : @update Demo.types Demo.host (Demo.props 3 None) Demo.ids hooks
                = Normal _)
    by (vm_compute; reflexivity).
  match type of E2 with _ = Normal ?x => set (u := x) in E2 end.
  destruct (transition_started _ _ _ _ _ _ _ _ E0 E1 E2)
    as (previous & fr & Hprev & Hfr & Hchange & Hanims).
  vm_compute in Hprev. injection Hprev as <-.
  vm_compute in Hfr. injection Hfr as <-.
  destruct Hchange as [animations Hst]; [done|].
  destruct (Hanims animations Hst) as [Hlen Hall].
  destruct (Hall 0 Demo.tabStack eq_refl)
    as (a & d & Ha & _ & _ & _ & _ & _ & Hbefore & Hnone & _).
  destruct Hnone as (Hdriver & toValue & Hconfig); [done|done|].
  assert (Hto : animation_config a !! "toValue" = Some (VNumber (-1)%Q)).
  { apply Hbefore. simpl. lia. }
  assert (HtoValue : VNumber toValue = VNumber (-1)%Q).
  { rewrite Hconfig in Hto. rewrite lookup_insert_ne in Hto by done.
    rewrite lookup_insert_eq in Hto. by injection Hto as ->. }
  rewrite HtoValue in Hconfig.
  exists u0, hooks, u, animations, a.
  split; [exact E0|]. split; [exact E1|]. split; [exact E2|].
  split; [exact Hst|]. split; [exact Hlen|]. split; [exact Ha|].
  split; [exact Hdriver|]. split; [exact Hto|]. exact Hconfig.
Defined.

(** ** The functions on small inputs *)

Example hasAnimation_of_nothing :
  @hasAnimation Demo.types Demo.blank = true.
Proof. reflexivity. Qed.

Example hasAnimation_of_spec_only :
  @hasAnimation Demo.types
    (Demo.tabOptions None None (Some Demo.springSpec) None) = false.
Proof. reflexivity. Qed.

Example hasAnimation_of_none :
  @hasAnimation Demo.types (Demo.tabOptions None (Some AnimNone) None None) = false.
Proof. reflexivity. Qed.

(** The prop of the four-tab navigator holds [bottom: 20] and an
    explicit [top: undefined]; the context holds 47, 0, 34, 0. *)
Example resolveInset_sides :
  let ctx := Some {| inset_top := 47%Q; inset_right := 0%Q;
                     inset_bottom := 34%Q; inset_left := 0%Q |} in
  let prop := safeAreaInsets (Demo.props 1 None) in
  resolveInset prop ctx SideBottom = 20%Q
  ∧ resolveInset prop ctx SideTop = 47%Q
  ∧ resolveInset prop None SideTop = 0%Q
  ∧ resolveInset None ctx SideBottom = 34%Q.
Proof. vm_compute. done. Qed.

(** A screen that was loaded and unmounts on blur is not rendered while
    another tab is focused, although none of the lazy conditions holds. *)
Example unmounted_although_loaded :
  ∃ pass,
    @BottomTabView Demo.types Demo.host (Demo.props 1 None) Demo.visited = Normal pass
    ∧ includes (loaded Demo.visited) (key Demo.tabContacts) = true
    ∧ children (screens (output pass)) !! 2 = Some None.
Proof. eexists. split; [vm_compute; reflexivity|]. by vm_compute. Qed.

(** An index past the routes, or a route without a descriptor, throws. *)
Example out_of_range_throws :
  @BottomTabView Demo.types Demo.host (Demo.props 4 None) Demo.hooks
  = Throw TypeError.
Proof. reflexivity. Qed.

(** Halfway between the last two knots the interpolation is halfway
    between 1 and 0. *)
Example activityInterpolation_between :
  ∃ y, interpolate activityInterpolation (1 - (1 # 200000))%Q = Some y
       ∧ (y == 1 # 2)%Q.
Proof. eexists. split; [reflexivity|]. reflexivity. Qed.

(** ** Further properties of the view *)

Section MoreProperties.

Context `{Host}.

(** *** What can be thrown *)







(** *** The rendered elements *)

(** The element the callback returns, field by field. *)
Lemma renderRoute_element (props : Props) (l : list string) (h : Q)
    (anims : gmap string AnimatedValue) (pos : TabBarPosition)
    (r : Route) (i : nat) (el : MaybeScreenElement) :
  renderRoute props l h anims pos r i = Normal (Some el) →
  ∃ d, descriptors props !! key r = Some d ∧
    let isFocused := bool_decide (index (state props) = i) in
    el =
    {| element_key := key r;
       zIndex := if isFocused then 0%Z else (-1)%Z;
       active := active el;
       enabled := detachInactiveScreens_ props;
       element_freezeOnBlur := freezeOnBlur (options d);
       heightContext := match pos with PosBottom => h | _ => 0%Q end;
       screen :=
         {| focused := isFocused;
            screen_route := route d;
            screen_navigation := navigation d;
            screen_headerShown := headerShown (options d);
            screen_headerStatusBarHeight := headerStatusBarHeight (options d);
            screen_headerTransparent := headerTransparent (options d);
            screen_header :=
              match header (options d) with
              | Some hd =>
                  callHeader hd
                    {| hp_layout := initialMetrics_frame;
                       hp_route := route d;
                       hp_navigation := navigation d;
                       hp_options := options d |}
              | None =>
                  Header (options d) initialMetrics_frame
                    (getHeaderTitle (options d) (name r))
              end;
            screen_style :=
              (sceneContainerStyle props,
               if hasAnimation (options d)
               then f ← nullish_or (sceneStyleInterpolator (options d))
                          (preset_sceneStyleInterpolator
                             (NAMED_TRANSITIONS_PRESETS
                                (nullish (animation (options d)) AnimNone)));
                    f (anims !! key r)
               else None);
            screen_children := render d () |} |}.
Proof.
  unfold renderRoute. intros E.
  apply bind_Normal in E as (d & Hd & E). apply defined_Normal in Hd.
  exists d. split; [done|]. cbv zeta.
  destruct (_ && _) in E; [done|].
  destruct (_ && _) in E; [done|].
  apply bind_Normal in E as (act & _ & [= <-]). done.
Qed.

(** X1.  The children of the screen container are aligned with
    [state.routes]: there are as many, and the element in a slot has
    the key of the route of that slot and shows the route, the
    navigation object and the rendered content of that route's
    descriptor. *)
Theorem children_follow_routes (props : Props) (hooks : Hooks) (pass : RenderPass) :
  BottomTabView props hooks = Normal pass →
  length (children (screens (output pass))) = length (routes (state props)) ∧
  ∀ i el, children (screens (output pass)) !! i = Some (Some el) →
    ∃ r d,
      routes (state props) !! i = Some r ∧
      descriptors props !! key r = Some d ∧
      element_key el = key r ∧
      screen_route (screen el) = route d ∧
      screen_navigation (screen el) = navigation d ∧
      screen_children (screen el) = render d ().
Proof.
  intros E.
  destruct (BottomTabView_inv _ _ _ E) as (fr & an & fd & _ & _ & _ & Hch & _).
  cbv zeta in Hch. apply mapWithIndex_lookup in Hch as [Hlen Hall].
  split; [done|]. intros i el Hel.
  assert (is_Some (routes (state props) !! i)) as [r Hr].
  { apply lookup_lt_is_Some. rewrite <- Hlen. by apply lookup_lt_Some in Hel. }
  destruct (Hall i r Hr) as (o & Eo & Ho). simpl in Eo.
  rewrite Hel in Ho. injection Ho as <-.
  apply renderRoute_element in Eo as (d & Hd & ->).
  by exists r, d.
Qed.

(** X2.  Exactly one screen is on top: the slot at [state.index] holds
    an element that is focused, has [zIndex] 0 and activity state 2,
    and every other rendered element is unfocused, has [zIndex] -1 and
    an activity state other than the number 2. *)
Theorem one_screen_on_top (props : Props) (hooks : Hooks) (pass : RenderPass) :
  BottomTabView props hooks = Normal pass →
  (∃ el, children (screens (output pass)) !! index (state props) = Some (Some el)
         ∧ focused (screen el) = true
         ∧ zIndex el = 0%Z
         ∧ active el = ActivityNumber STATE_ON_TOP) ∧
  (∀ j el, j ≠ index (state props) →
     children (screens (output pass)) !! j = Some (Some el) →
     focused (screen el) = false
     ∧ zIndex el = (-1)%Z
     ∧ active el ≠ ActivityNumber STATE_ON_TOP).
Proof.
  intros E.
  destruct (BottomTabView_inv _ _ _ E) as (fr & an & fd & Hfr & _ & _ & Hch & _).
  cbv zeta in Hch. apply mapWithIndex_lookup in Hch as [Hlen Hall]. split.
  - destruct (Hall _ _ Hfr) as (o & Eo & Ho). simpl in Eo.
    destruct (renderRoute_inv _ _ _ _ _ _ _ _ Eo) as (d & Hd & Hcase).
    cbv zeta in Hcase. rewrite bool_decide_eq_true_2 in Hcase by done.
    simpl in Hcase. rewrite !andb_false_r in Hcase. simpl in Hcase.
    destruct Hcase as (el & -> & _ & Hf & _ & Hact).
    destruct (renderRoute_element _ _ _ _ _ _ _ _ Eo) as (d' & _ & Hel).
    cbv zeta in Hel. rewrite bool_decide_eq_true_2 in Hel by done.
    exists el. split_and!; try done. by rewrite Hel.
  - intros j el Hj Hel.
    assert (is_Some (routes (state props) !! j)) as [r Hr].
    { apply lookup_lt_is_Some. rewrite <- Hlen. by apply lookup_lt_Some in Hel. }
    destruct (Hall j r Hr) as (o & Eo & Ho). simpl in Eo.
    rewrite Hel in Ho. injection Ho as <-.
    destruct (renderRoute_inv _ _ _ _ _ _ _ _ Eo) as (d & Hd & Hcase).
    cbv zeta in Hcase. rewrite bool_decide_eq_false_2 in Hcase by done.
    destruct (_ || _) in Hcase; [done|].
    destruct Hcase as (el' & [= <-] & _ & Hf & _ & Hact).
    destruct (renderRoute_element _ _ _ _ _ _ _ _ Eo) as (d' & _ & Hrec).
    cbv zeta in Hrec. rewrite bool_decide_eq_false_2 in Hrec by done.
    split_and!; [done|by rewrite Hrec|].
    destruct (hasAnimation (options d)).
    + destruct Hact as (v & _ & ->). done.
    + rewrite Hact. unfold STATE_INACTIVE, STATE_ON_TOP. done.
Qed.

(** X3.  The body returns only when [state.index] is in range, every
    route has a descriptor, and every route that is rendered unfocused
    with animation enabled has an animated value: in each of the other
    cases the view reads a property of [undefined] and throws. *)
Theorem BottomTabView_returns_only_if (props : Props) (hooks : Hooks)
    (pass : RenderPass) :
  BottomTabView props hooks = Normal pass →
  index (state props) < length (routes (state props)) ∧
  (∀ r, r ∈ routes (state props) → is_Some (descriptors props !! key r)) ∧
  (∀ i r d,
     routes (state props) !! i = Some r →
     descriptors props !! key r = Some d →
     i ≠ index (state props) →
     hasAnimation (options d) = true →
     unmountOnBlur (options d) ≠ Some true →
     lazy (options d) = Some false
     ∨ key r ∈ loaded hooks
     ∨ key r ∈ preloadedRouteKeys (state props) →
     is_Some (useAnimatedHashMap (state props) !! key r)).
Proof.
  intros E.
  destruct (BottomTabView_inv _ _ _ E) as (fr & an & fd & Hfr & _ & _ & Hch & _).
  cbv zeta in Hch. apply mapWithIndex_lookup in Hch as [_ Hall].
  split_and!.
  - by apply lookup_lt_Some in Hfr.
  - intros r Hr. apply list_elem_of_lookup in Hr as [j Hj].
    destruct (Hall j r Hj) as (o & Eo & _). simpl in Eo.
    apply renderRoute_inv in Eo as (d & Hd & _). by eexists.
  - intros i r d Hr Hd Hi Hanim Hu Hload.
    destruct (Hall i r Hr) as (o & Eo & _). simpl in Eo.
    apply renderRoute_inv in Eo as (d2 & Hd2 & Hcase). cbv zeta in Hcase.
    rewrite Hd in Hd2. injection Hd2 as <-.
    rewrite bool_decide_eq_false_2 in Hcase by done.
    rewrite Hanim in Hcase.
    assert (Hg1 : truthy (unmountOnBlur (options d)) = false).
    { unfold truthy. by destruct (unmountOnBlur (options d)) as [[|]|]. }
    assert (Hg2 : nullish (lazy (options d)) true
                  && negb (includes (loaded hooks) (key r))
                  && negb false
                  && negb (includes (preloadedRouteKeys (state props)) (key r))
                  = false).
    { destruct Hload as [->|[Hl|Hl]]; [done| |];
        apply includes_true in Hl; rewrite Hl; simpl;
        by rewrite ?andb_false_r. }
    rewrite Hg1, Hg2 in Hcase. simpl in Hcase.
    destruct Hcase as (el & _ & _ & _ & _ & v & Hv & _). by eexists.
Qed.


(** *** When the effect runs and what it starts *)

Lemma sameDeps_eq (a b : EffectDeps) : sameDeps a b = true ↔ a = b.
Proof.
  unfold sameDeps. rewrite !andb_true_iff, !bool_decide_eq_true.
  destruct a, b; simpl. split.
  - intros ((((-> & ->) & ->) & ->) & ->). done.
  - intros [= -> -> -> -> ->]. done.
Qed.

(** X5.  After a render, the transition effect is skipped exactly when
    the five dependencies (descriptors, focused key, index, routes,
    animated values) are those of its last run; when it is skipped the
    ref and the stored dependencies stay as they were.  After the mount
    there is no last run, so it is never skipped. *)
Theorem effect_skipped_iff_unchanged (props : Props) (ids : Identities)
    (hooks : Hooks) (u : Update) :
  update props ids hooks = Normal u →
  ∃ focusedRoute,
    routes (state props) !! index (state props) = Some focusedRoute ∧
    (started u = None
     ↔ effectDeps hooks = Some (currentDeps props ids (key focusedRoute))) ∧
    (started u = None →
       previousRouteKeyRef (hooks_after u) = previousRouteKeyRef hooks
       ∧ effectDeps (hooks_after u) = effectDeps hooks) ∧
    (effectDeps hooks = None → is_Some (started u)).
Proof.
  intros E.
  destruct (update_hooks _ _ _ _ E) as (fr & _ & Hfr & _ & _ & _ & _ & _ & Heff).
  exists fr. split; [done|].
  destruct (effectRuns _ _) eqn:Hruns.
  - destruct Heff as (an & Hst & _). rewrite Hst. split; [|split].
    + split; [done|]. intros Hd. rewrite Hd in Hruns. simpl in Hruns.
      apply negb_true_iff in Hruns.
      assert (sameDeps (currentDeps props ids (key fr))
                (currentDeps props ids (key fr)) = true) by by apply sameDeps_eq.
      congruence.
    + done.
    + intros _. by eexists.
  - destruct Heff as (Hst & Hp & Hd). split; [|split].
    + split; [|done]. intros _.
      destruct (effectDeps hooks) as [last|]; [|done]. simpl in Hruns.
      apply negb_false_iff, sameDeps_eq in Hruns. by subst last.
    + done.
    + intros Hnone. by rewrite Hnone in Hruns.
Qed.

(** X6.  The mount runs the effect, with the focused route as both the
    previous and the new one: an animation is started for every route,
    every route other than the focused one is moved by a timing of
    duration 0, and the ref ends up holding the focused key. *)
Theorem mount_starts_at_rest (props : Props) (ids : Identities) (u : Update) :
  mount props ids = Normal u →
  ∃ focusedRoute animations,
    routes (state props) !! index (state props) = Some focusedRoute ∧
    started u = Some animations ∧
    length animations = length (routes (state props)) ∧
    previousRouteKeyRef (hooks_after u) = key focusedRoute ∧
    (∀ i r a,
       routes (state props) !! i = Some r →
       animations !! i = Some a →
       key r ≠ key focusedRoute →
       driver a = timing
       ∧ animation_config a !! "duration" = Some (VNumber 0%Q)).
Proof.
  unfold mount. intros E. apply bind_Normal in E as (hooks0 & E0 & E).
  apply initialHooks_inv in E0 as (fr & _ & Hfr & _ & _ & Hp0 & Hd0 & _).
  destruct (update_hooks _ _ _ _ E) as (fr' & _ & Hfr' & _ & _ & _ & _ & _ & Heff).
  rewrite Hfr in Hfr'. injection Hfr' as <-.
  rewrite Hd0 in Heff. simpl in Heff.
  destruct Heff as (an & Hst & Han & Hp & _). rewrite Hp0 in Han.
  apply animateToIndex_inv in Han as [Hlen Hall].
  exists fr, an. split_and!; try done.
  intros i r a Hr Ha Hne. destruct (Hall i r Hr) as (a' & Ha' & Ea).
  rewrite Ha in Ha'. injection Ha' as <-.
  apply animateRoute_inv in Ea as (d & _ & ->). cbv zeta.
  rewrite decide_True by done. simpl. split; [done|].
  by rewrite !lookup_insert_ne by done.
Qed.

(** X7.  A [transitionSpec] given in the options of the route that is
    left or entered is the one used, whatever [animation] names: its
    driver is called, its config is passed on, except that [toValue]
    and [useNativeDriver] are set by the view whatever the config holds
    under those names. *)
Theorem custom_transitionSpec_used (props : Props) (hooks hooks' : Hooks)
    (animations : list CompositeAnimation) (i : nat) (r focusedRoute : Route)
    (d : Descriptor) (s : TransitionSpec) :
  effect props hooks = Normal (animations, hooks') →
  routes (state props) !! index (state props) = Some focusedRoute →
  routes (state props) !! i = Some r →
  descriptors props !! key r = Some d →
  transitionSpec (options d) = Some s →
  key r = previousRouteKeyRef hooks ∨ key r = key focusedRoute →
  ∃ a v,
    animations !! i = Some a ∧
    driver a = spec_animation s ∧
    (∀ k, k ≠ "toValue" → k ≠ "useNativeDriver" →
       animation_config a !! k = spec_config s !! k) ∧
    animation_config a !! "useNativeDriver" = Some (VBoolean true) ∧
    animation_config a !! "toValue" = Some (VNumber v) ∧
    (v = 0%Q ∨ v = 1%Q ∨ v = (-1)%Q).
Proof.
  unfold effect. intros E Hfr Hr Hd Hs Hor.
  rewrite Hfr in E. simpl in E.
  apply bind_Normal in E as (an & Han & [= <- <-]).
  apply animateToIndex_inv in Han as [_ Hall].
  destruct (Hall i r Hr) as (a & Ha & Ea).
  apply animateRoute_inv in Ea as (d' & Hd' & Ea). cbv zeta in Ea.
  rewrite Hd in Hd'. injection Hd' as <-. rewrite Hs in Ea. simpl in Ea.
  rewrite decide_False in Ea by tauto. subst a.
  eexists _, _. split; [exact Ha|]. simpl. split_and!; try done.
  - intros k Hk1 Hk2. by rewrite !lookup_insert_ne by done.
  - by rewrite lookup_insert_eq.
  - rewrite lookup_insert_ne by done. by rewrite lookup_insert_eq.
  - repeat case_decide; auto.
Qed.

(** X8.  Options that set no [transitionSpec] and whose [animation] is
    unset or ['none'] are moved by a timing of duration 0, also when
    the route is the one left or entered; with [animation] unset they
    nevertheless count as animated for [hasAnimation]. *)
Theorem unset_animation_moves_instantly (props : Props) (hooks hooks' : Hooks)
    (animations : list CompositeAnimation) (i : nat) (r : Route) (d : Descriptor) :
  effect props hooks = Normal (animations, hooks') →
  routes (state props) !! i = Some r →
  descriptors props !! key r = Some d →
  transitionSpec (options d) = None →
  animation (options d) = None ∨ animation (options d) = Some AnimNone →
  (∃ a, animations !! i = Some a
        ∧ driver a = timing
        ∧ animation_config a !! "duration" = Some (VNumber 0%Q)) ∧
  (animation (options d) = None → hasAnimation (options d) = true).
Proof.
  unfold effect. intros E Hr Hd Hs Hanim. split.
  - apply bind_Normal in E as (fr & _ & E). simpl in E.
    apply bind_Normal in E as (an & Han & [= <- <-]).
    apply animateToIndex_inv in Han as [_ Hall].
    destruct (Hall i r Hr) as (a & Ha & Ea).
    apply animateRoute_inv in Ea as (d' & Hd' & Ea). cbv zeta in Ea.
    rewrite Hd in Hd'. injection Hd' as <-. rewrite Hs in Ea. subst a.
    exists
      {| driver := timing;
         animated := useAnimatedHashMap (state props) !! key r;
         animation_config :=
           <["useNativeDriver" := VBoolean true]>
             (<["toValue" :=
                  VNumber
                    (if decide (i = index (state props)) then 0%Q
                     else if decide (index (state props) < i) then 1%Q
                          else (-1)%Q)]>
                {["duration" := VNumber 0%Q]}) |}.
    split_and!; [|done|simpl; by rewrite !lookup_insert_ne by done].
    rewrite Ha. f_equal.
    destruct Hanim as [->| ->]; simpl; by case_decide.
  - intros Hnone. unfold hasAnimation. by rewrite Hnone, Hs.
Qed.

(** X9.  For a view that was mounted and went through any events, the
    ref holds the key that the latest render focused, and so do the
    dependencies stored by the last run of the effect. *)
Theorem previousRouteKey_tracks_focus (props0 : Props) (ids0 : Identities)
    (u0 : Update) (events : list Event) (hooks : Hooks) :
  mount props0 ids0 = Normal u0 →
  run (hooks_after u0) events = Normal hooks →
  focusedKey (lastRendered props0 events) = Some (previousRouteKeyRef hooks) ∧
  ∃ last, effectDeps hooks = Some last
          ∧ dep_focusedRouteKey last = previousRouteKeyRef hooks.
Proof.
  intros Emount Erun.
  destruct (run_tracks events props0 _ _ (mount_tracks _ _ _ Emount) Erun)
    as (fr & last & Hfr & Hp & Hd & Hk).
  unfold focusedKey. rewrite Hfr. simpl. split; [by rewrite Hp|].
  exists last. by rewrite Hp.
Qed.

(** *** More about the rendered screens *)

(** X10.  The scene style of a rendered screen comes after
    [sceneContainerStyle] and is there only when the options count as
    animated: options whose [animation] is ['none'], or that only set a
    [transitionSpec], get no scene style even when they carry a
    [sceneStyleInterpolator]; animated options get the result of their
    own interpolator on the route's animated value, or else that of the
    interpolator of the named preset. *)
Theorem scene_style_only_when_animated (props : Props) (hooks : Hooks)
    (pass : RenderPass) (i : nat) (r : Route) (d : Descriptor)
    (el : MaybeScreenElement) :
  BottomTabView props hooks = Normal pass →
  routes (state props) !! i = Some r →
  descriptors props !! key r = Some d →
  children (screens (output pass)) !! i = Some (Some el) →
  let progress := useAnimatedHashMap (state props) !! key r in
  (screen_style (screen el)).1 = sceneContainerStyle props ∧
  (hasAnimation (options d) = false → (screen_style (screen el)).2 = None) ∧
  (∀ f, hasAnimation (options d) = true →
        sceneStyleInterpolator (options d) = Some f →
        (screen_style (screen el)).2 = f progress) ∧
  (∀ a, sceneStyleInterpolator (options d) = None →
        animation (options d) = Some a → a ≠ AnimNone →
        (screen_style (screen el)).2
        = g ← preset_sceneStyleInterpolator (NAMED_TRANSITIONS_PRESETS a);
          g progress) ∧
  (sceneStyleInterpolator (options d) = None →
   animation (options d) = None →
   (screen_style (screen el)).2 = None).
Proof.
  intros E Hr Hd Hel.
  destruct (BottomTabView_child _ _ _ _ _ E Hr) as (fr & fd & o & _ & _ & Ho & Eo).
  rewrite Hel in Ho. injection Ho as <-.
  apply renderRoute_element in Eo as (d' & Hd' & ->). cbv zeta.
  rewrite Hd in Hd'. injection Hd' as <-. simpl. split_and!.
  - done.
  - by intros ->.
  - intros f -> ->. done.
  - intros a Hnone Ha Hne. rewrite Hnone, Ha. simpl.
    assert (hasAnimation (options d) = true) as ->; [|done].
    unfold hasAnimation. rewrite Ha. by destruct a.
  - intros Hnone Ha. rewrite Hnone, Ha. simpl. by destruct (hasAnimation _).
Qed.

Lemma BottomTabView_container (props : Props) (hooks : Hooks) (pass : RenderPass) :
  BottomTabView props hooks = Normal pass →
  container_enabled (screens (output pass)) = detachInactiveScreens_ props ∧
  container_style (screens (output pass)) = styles_screens.
Proof.
  unfold BottomTabView. intros E.
  apply bind_Normal in E as (fr & _ & E).
  apply bind_Normal in E as (an & _ & E).
  apply bind_Normal in E as (fd & _ & E).
  apply bind_Normal in E as (ch & _ & [= <-]). done.
Qed.

(** X11.  The screen container and every rendered screen are given the
    same [enabled]: the [detachInactiveScreens] prop when it is set,
    and otherwise whether the platform is web, Android or iOS. *)
Theorem detach_setting_shared (props : Props) (hooks : Hooks) (pass : RenderPass) :
  BottomTabView props hooks = Normal pass →
  (∀ i el, children (screens (output pass)) !! i = Some (Some el) →
     enabled el = container_enabled (screens (output pass))) ∧
  (∀ b, detachInactiveScreens props = Some b →
     container_enabled (screens (output pass)) = b) ∧
  (detachInactiveScreens props = None →
     (container_enabled (screens (output pass)) = true
      ↔ Platform_OS = web ∨ Platform_OS = android ∨ Platform_OS = ios)).
Proof.
  intros E. destruct (BottomTabView_container _ _ _ E) as [Hen _].
  rewrite Hen. split_and!.
  - intros i el Hel.
    destruct (BottomTabView_inv _ _ _ E) as (fr & an & fd & _ & _ & _ & Hch & _).
    cbv zeta in Hch. apply mapWithIndex_lookup in Hch as [Hlen Hall].
    assert (is_Some (routes (state props) !! i)) as [r Hr].
    { apply lookup_lt_is_Some. rewrite <- Hlen. by apply lookup_lt_Some in Hel. }
    destruct (Hall i r Hr) as (o & Eo & Ho). simpl in Eo.
    rewrite Hel in Ho. injection Ho as <-.
    by apply renderRoute_element in Eo as (d & _ & ->).
  - intros b Hb. unfold detachInactiveScreens_. by rewrite Hb.
  - intros Hnone. unfold detachInactiveScreens_. rewrite Hnone. simpl.
    destruct Platform_OS; split; try done; try tauto;
      intros [|[|]]; done.
Qed.

(** X12.  In every execution that reports two-state mode to the
    container, no screen is given an interpolation: the focused one
    gets the number 2 and every other rendered one the number 0. *)
Theorem two_states_without_interpolation (props : Props) (hooks : Hooks)
    (pass : RenderPass) (i : nat) (el : MaybeScreenElement) :
  BottomTabView props hooks = Normal pass →
  hasTwoStates (screens (output pass)) = true →
  children (screens (output pass)) !! i = Some (Some el) →
  active el
  = ActivityNumber
      (if bool_decide (index (state props) = i) then STATE_ON_TOP
       else STATE_INACTIVE).
Proof.
  intros E Htwo Hel.
  destruct (BottomTabView_inv _ _ _ E)
    as (fr & an & fd & _ & Han & _ & Hch & Htwo' & _).
  rewrite Htwo' in Htwo. apply negb_true_iff in Htwo. subst an.
  cbv zeta in Hch. apply mapWithIndex_lookup in Hch as [Hlen Hall].
  assert (is_Some (routes (state props) !! i)) as [r Hr].
  { apply lookup_lt_is_Some. rewrite <- Hlen. by apply lookup_lt_Some in Hel. }
  destruct (Hall i r Hr) as (o & Eo & Ho). simpl in Eo.
  rewrite Hel in Ho. injection Ho as <-.
  apply renderRoute_inv in Eo as (d & Hd & Hcase). cbv zeta in Hcase.
  unfold anyAnimation in Han.
  eapply some_false in Han; [|by eapply list_elem_of_lookup_2].
  rewrite Hd in Han. simpl in Han. injection Han as Hno.
  destruct (_ || _) in Hcase; [done|].
  destruct Hcase as (el' & [= <-] & _ & _ & _ & Hact).
  rewrite Hno in Hact. by destruct (bool_decide _).
Qed.

(** *** The first height of the tab bar *)

(** X13.  The insets handed to [getTabBarHeight] on mount are the
    initial metrics overridden by the [safeAreaInsets] prop, side by
    side: a side present in the prop wins, and a side the prop leaves
    out keeps its initial metric.  A side the prop holds as [undefined]
    wins too, so [getTabBarHeight] gets [undefined] for it, while the
    tab bar falls back to the context for that side. *)
Theorem initial_height_insets (props : Props) (hooks0 : Hooks) :
  initialHooks props = Normal hooks0 →
  ∃ args,
    tabBarHeight hooks0 = getTabBarHeight args ∧
    h_dimensions args = initialMetrics_frame ∧
    h_layout args = {| width := width initialMetrics_frame; height := 0%Q |} ∧
    (∀ s entry m,
       safeAreaInsets props = Some m → m !! side_key s = Some entry →
       h_insets args !! side_key s = Some entry) ∧
    (∀ s,
       (safeAreaInsets props = None
        ∨ ∃ m, safeAreaInsets props = Some m ∧ m !! side_key s = None) →
       h_insets args !! side_key s = Some (Some (edge initialMetrics_insets s))) ∧
    (∀ s m ctx,
       safeAreaInsets props = Some m → m !! side_key s = Some None →
       h_insets args !! side_key s = Some None
       ∧ edge (bar_insets (tabBarProps props (Some ctx))) s = edge ctx s).
Proof.
  intros E. apply initialHooks_inv in E as (fr & fd & _ & _ & _ & _ & _ & Hh).
  eexists. split; [exact Hh|]. simpl.
  assert (Hinit : ∀ s, insets_object initialMetrics_insets !! side_key s
                       = Some (Some (edge initialMetrics_insets s))).
  { intros []; unfold insets_object; simpl.
    - by rewrite lookup_insert_eq.
    - rewrite lookup_insert_ne by done. by rewrite lookup_insert_eq.
    - rewrite !lookup_insert_ne by done. by rewrite lookup_insert_eq.
    - rewrite !lookup_insert_ne by done. by rewrite lookup_insert_eq. }
  split_and!; try done.
  - intros s entry m -> Hm. simpl. by apply lookup_union_Some_l.
  - intros s [-> |(m & -> & Hm)]; simpl.
    + by rewrite lookup_union_r by apply lookup_empty.
    + by rewrite lookup_union_r.
  - intros s m ctx Hsome Hm. split.
    + rewrite Hsome. simpl. by apply lookup_union_Some_l.
    + destruct s; simpl in *; unfold resolveInset; rewrite Hsome; simpl;
        by rewrite Hm.
Qed.

(** *** Measuring the tab bar *)

Lemma renderRoute_height (props : Props) (l : list string) (h h' : Q)
    (anims : gmap string AnimatedValue) (pos : TabBarPosition)
    (r : Route) (i : nat) (o : option MaybeScreenElement) :
  renderRoute props l h anims pos r i = Normal o →
  renderRoute props l h' anims pos r i
  = Normal
      ((λ el,
          {| element_key := element_key el;
             zIndex := zIndex el;
             active := active el;
             enabled := enabled el;
             element_freezeOnBlur := element_freezeOnBlur el;
             heightContext := match pos with PosBottom => h' | _ => 0%Q end;
             screen := screen el |}) <$> o).
Proof.
  unfold renderRoute. intros E.
  apply bind_Normal in E as (d & Hd & E). rewrite Hd, Normal_bind.
  destruct (_ && _); [by injection E as <-|].
  destruct (_ && _); [by injection E as <-|].
  apply bind_Normal in E as (act & Hact & [= <-]). by rewrite Hact.
Qed.

Lemma mapWithIndex_related {A B} (f g : A → nat → completion B) (φ : B → B)
    (l : list A) :
  (∀ x i y, f x i = Normal y → g x i = Normal (φ y)) →
  ∀ i ys, mapWithIndex f i l = Normal ys →
  mapWithIndex g i l = Normal (φ <$> ys).
Proof.
  intros Hfg. induction l as [|x l IH]; intros i ys E; simpl in *.
  - by injection E as <-.
  - apply bind_Normal in E as (y & Ey & E).
    apply bind_Normal in E as (ys' & Eys & [= <-]).
    by rewrite (Hfg _ _ _ Ey), (IH _ _ Eys).
Qed.

(** X14.  Reporting a height for the tab bar never mounts or unmounts a
    screen: the body run on the hooks after [setTabBarHeight] returns
    whenever it returned before, asks for the same update of [loaded],
    and renders nothing in exactly the same slots and the same keys,
    activity states, stacking and [Screen] props in the others. *)
Theorem measuring_keeps_screens (props : Props) (hooks : Hooks)
    (pass : RenderPass) (h : Q) :
  BottomTabView props hooks = Normal pass →
  ∃ pass2,
    BottomTabView props (setTabBarHeight h hooks) = Normal pass2 ∧
    setLoaded pass2 = setLoaded pass ∧
    hasTwoStates (screens (output pass2)) = hasTwoStates (screens (output pass)) ∧
    root_style (output pass2) = root_style (output pass) ∧
    ∀ i,
      match children (screens (output pass)) !! i with
      | Some (Some el) =>
          ∃ el2, children (screens (output pass2)) !! i = Some (Some el2)
                 ∧ element_key el2 = element_key el
                 ∧ active el2 = active el
                 ∧ zIndex el2 = zIndex el
                 ∧ screen el2 = screen el
      | o => children (screens (output pass2)) !! i = o
      end.
Proof.
  unfold BottomTabView. intros E.
  apply bind_Normal in E as (fr & Efr & E).
  apply bind_Normal in E as (an & Ean & E).
  apply bind_Normal in E as (fd & Efd & E).
  apply bind_Normal in E as (ch & Ech & [= <-]).
  rewrite Efr, Normal_bind, Ean, Normal_bind, Efd, Normal_bind.
  change (loaded (setTabBarHeight h hooks)) with (loaded hooks).
  change (tabBarHeight (setTabBarHeight h hooks)) with h.
  eassert (Ech2 :
    mapWithIndex
      (renderRoute props (loaded hooks) h (useAnimatedHashMap (state props))
         (nullish (tabBarPosition (options fd)) PosBottom))
      0 (routes (state props))
    = Normal (_ <$> ch)).
  { eapply mapWithIndex_related; [|exact Ech].
    intros r i o Eo. apply (renderRoute_height _ _ _ h) in Eo. exact Eo. }
  rewrite Ech2, Normal_bind. eexists. split; [reflexivity|]. simpl.
  split_and!; try done.
  intros i. rewrite list_lookup_fmap.
  destruct (ch !! i) as [[el|]|]; simpl; [|done|done].
  by eexists.
Qed.

(** *** What [loaded] holds *)

Lemma run_NoDup (events : list Event) :
  ∀ hooks hooks2, NoDup (loaded hooks) → run hooks events = Normal hooks2 →
  NoDup (loaded hooks2).
Proof.
  induction events as [|e events IH]; intros hooks hooks2 Hnd E.
  - by injection E as <-.
  - rewrite run_cons in E. apply bind_Normal in E as (hooks1 & Estep & E).
    apply (IH hooks1); [|done]. apply step_inv in Estep.
    destruct e as [props ids|h].
    + destruct Estep as (u & Eu & ->).
      destruct (update_hooks _ _ _ _ Eu) as (fr & _ & _ & _ & _ & _ & Hl & _).
      rewrite Hl. destruct (includes _ _) eqn:Hin; [done|].
      apply includes_false in Hin. apply NoDup_app. split_and!; [done| |].
      * intros k Hk Hk2. apply list_elem_of_singleton in Hk2. by subst k.
      * apply NoDup_singleton.
    + by subst hooks1.
Qed.

(** X15.  [loaded] never holds a key twice, whatever the view went
    through since it was mounted. *)
Theorem loaded_no_duplicates (props0 : Props) (ids0 : Identities) (u0 : Update)
    (events : list Event) (hooks : Hooks) :
  mount props0 ids0 = Normal u0 →
  run (hooks_after u0) events = Normal hooks →
  NoDup (loaded hooks).
Proof.
  intros Emount Erun. apply (run_NoDup events _ _) in Erun; [done|].
  unfold mount in Emount. apply bind_Normal in Emount as (hooks0 & E0 & Eu).
  apply initialHooks_inv in E0 as (fr & _ & Hfr & _ & Hl0 & _).
  destruct (update_hooks _ _ _ _ Eu) as (fr2 & _ & Hfr2 & _ & _ & _ & Hl & _).
  rewrite Hfr in Hfr2. injection Hfr2 as <-. rewrite Hl, Hl0.
  assert (Hin : includes [key fr] (key fr) = true).
  { apply includes_true, list_elem_of_here. }
  rewrite Hin. apply NoDup_singleton.
Qed.

(** A key in [loaded] was there before or was focused by a render
    among the events. *)
Lemma run_loaded_visited (events : list Event) :
  ∀ (props0 : Props) (hooks hooks2 : Hooks) (k : string),
  run hooks events = Normal hooks2 →
  k ∈ loaded hooks2 →
  k ∈ loaded hooks
  ∨ ∃ p, p ∈ renderedProps props0 events ∧ focusedKey p = Some k.
Proof.
  induction events as [|e events IH]; intros props0 hooks hooks2 k E Hk.
  - injection E as <-. by left.
  - rewrite run_cons in E. apply bind_Normal in E as (hooks1 & Estep & E).
    apply step_inv in Estep. destruct e as [props ids|h].
    + destruct Estep as (u & Eu & ->).
      destruct (IH props _ _ k E Hk) as [Hk1|(p & Hp & Hfoc)].
      * destruct (update_hooks _ _ _ _ Eu) as (fr & _ & Hfr & _ & _ & _ & Hl & _).
        rewrite Hl in Hk1. destruct (includes _ _); [by left|].
        apply elem_of_app in Hk1 as [Hk1|Hk1]; [by left|].
        apply list_elem_of_singleton in Hk1. subst k. right. exists props. split.
        -- unfold renderedProps. simpl. apply list_elem_of_further, list_elem_of_here.
        -- unfold focusedKey. by rewrite Hfr.
      * right. exists p. split; [|done].
        unfold renderedProps in *. simpl. by apply list_elem_of_further.
    + subst hooks1. destruct (IH props0 _ _ k E Hk) as [Hk1|(p & Hp & Hfoc)].
      * by left.
      * right. by exists p.
Qed.

Lemma mount_loaded (props0 : Props) (ids0 : Identities) (u0 : Update) (k : string) :
  mount props0 ids0 = Normal u0 →
  k ∈ loaded (hooks_after u0) →
  focusedKey props0 = Some k.
Proof.
  unfold mount. intros Emount Hk.
  apply bind_Normal in Emount as (hooks0 & E0 & Eu).
  apply initialHooks_inv in E0 as (fr & _ & Hfr & _ & Hl0 & _).
  destruct (update_hooks _ _ _ _ Eu) as (fr2 & _ & Hfr2 & _ & _ & _ & Hl & _).
  rewrite Hfr in Hfr2. injection Hfr2 as <-. rewrite Hl, Hl0 in Hk.
  assert (Hin : includes [key fr] (key fr) = true).
  { apply includes_true, list_elem_of_here. }
  rewrite Hin in Hk. apply list_elem_of_singleton in Hk. subst k.
  unfold focusedKey. by rewrite Hfr.
Qed.

(** X16.  Every key in [loaded] is the key of a route that some render
    since the mount has focused. *)
Theorem loaded_only_visited (props0 : Props) (ids0 : Identities) (u0 : Update)
    (events : list Event) (hooks : Hooks) (k : string) :
  mount props0 ids0 = Normal u0 →
  run (hooks_after u0) events = Normal hooks →
  k ∈ loaded hooks →
  ∃ p, p ∈ renderedProps props0 events ∧ focusedKey p = Some k.
Proof.
  intros Emount Erun Hk.
  destruct (run_loaded_visited events props0 _ _ k Erun Hk) as [Hk0|Hvis]; [|done].
  exists props0. split; [apply list_elem_of_here|].
  by apply (mount_loaded _ _ _ _ Emount).
Qed.

(** X17.  A lazy screen is not mounted before its first visit: in a
    render of a mounted view, nothing is rendered for a route whose
    options do not set [lazy] to [false], whose key is not preloaded
    and whose key no render so far, this one included, has focused. *)
Theorem never_visited_stays_unmounted (props0 : Props) (ids0 : Identities)
    (u0 : Update) (events : list Event) (hooks : Hooks)
    (props : Props) (ids : Identities) (u : Update)
    (j : nat) (r : Route) (d : Descriptor) :
  mount props0 ids0 = Normal u0 →
  run (hooks_after u0) events = Normal hooks →
  update props ids hooks = Normal u →
  routes (state props) !! j = Some r →
  descriptors props !! key r = Some d →
  lazy (options d) ≠ Some false →
  key r ∉ preloadedRouteKeys (state props) →
  (∀ p, p ∈ renderedProps props0 (events ++ [Rerender props ids]) →
        focusedKey p ≠ Some (key r)) →
  children (screens (tree u)) !! j = Some None.
Proof.
  intros Emount Erun Eu Hr Hd Hlazy Hpre Hnever.
  assert (Hnow : focusedKey props ≠ Some (key r)).
  { apply Hnever. unfold renderedProps. rewrite omap_app. simpl.
    apply list_elem_of_further, elem_of_app. right. apply list_elem_of_here. }
  assert (Hbefore : key r ∉ loaded hooks).
  { intros Hk.
    destruct (run_loaded_visited events props0 _ _ _ Erun Hk) as [Hk0|(p & Hp & Hfoc)].
    - apply (Hnever props0); [apply list_elem_of_here|].
      by apply (mount_loaded _ _ _ _ Emount).
    - apply (Hnever p); [|done]. unfold renderedProps in *. rewrite omap_app.
      apply elem_of_cons in Hp as [->|Hp]; [apply list_elem_of_here|].
      apply list_elem_of_further, elem_of_app. by left. }
  destruct (update_hooks _ _ _ _ Eu) as (fr & hooks1 & Hfr & Ebody & Hl1 & _ & Hl & _).
  assert (Hfocus : key fr ≠ key r).
  { intros Heq. apply Hnow. unfold focusedKey. rewrite Hfr. simpl.
    by rewrite Heq. }
  assert (Hj : index (state props) ≠ j).
  { intros <-. rewrite Hfr in Hr. injection Hr as <-. done. }
  assert (Hloaded : key r ∉ loaded hooks1).
  { rewrite Hl1, Hl. destruct (includes _ _); [done|].
    intros Hk. apply elem_of_app in Hk as [Hk|Hk]; [done|].
    apply list_elem_of_singleton in Hk. done. }
  destruct (BottomTabView_child _ _ _ _ _ Ebody Hr) as (fr2 & fd2 & o & _ & _ & Ho & Eo).
  simpl in Ho. rewrite Ho. f_equal.
  apply renderRoute_inv in Eo as (d2 & Hd2 & Hcase). cbv zeta in Hcase.
  rewrite Hd in Hd2. injection Hd2 as <-.
  apply includes_false in Hloaded, Hpre.
  rewrite Hloaded, Hpre, (bool_decide_eq_false_2 _ Hj) in Hcase.
  assert (Hl2 : nullish (lazy (options d)) true = true).
  { by destruct (lazy (options d)) as [[|]|]. }
  rewrite Hl2 in Hcase. simpl in Hcase. by rewrite orb_true_r in Hcase.
Qed.

(** *** The example on top of the view *)

(** X18.  With the tab bar position the example derives from the
    window width on the focused route: in a window at least 1024 wide
    the root is laid out [row-reverse] with the tab bar after the
    screens and every screen is given the tab bar height 0, and in a
    narrower window the root is unstyled, the tab bar is still after
    the screens and every screen is given the measured height. *)
Theorem example_position_by_width (props : Props) (hooks : Hooks)
    (pass : RenderPass) (w : Q) (st : BottomTabs.State)
    (focusedRoute : Route) (focusedDescriptor : Descriptor) :
  BottomTabView props hooks = Normal pass →
  routes (state props) !! index (state props) = Some focusedRoute →
  descriptors props !! key focusedRoute = Some focusedDescriptor →
  tabBarPosition (options focusedDescriptor)
  = Some (BottomTabs.so_tabBarPosition (BottomTabs.screenOptions w st)) →
  tabBarBefore (output pass) = None ∧
  is_Some (tabBarAfter (output pass)) ∧
  ((1024 <= w)%Q →
     root_style (output pass) = Some styles_left ∧
     ∀ i el, children (screens (output pass)) !! i = Some (Some el) →
             heightContext el = 0%Q) ∧
  (¬ (1024 <= w)%Q →
     root_style (output pass) = None ∧
     ∀ i el, children (screens (output pass)) !! i = Some (Some el) →
             heightContext el = tabBarHeight hooks).
Proof.
  intros E Hfr Hfd Hpos.
  destruct (BottomTabView_inv _ _ _ E)
    as (fr & an & fd & Hfr2 & _ & Hfd2 & Hch & _ & Hstyle & Hbefore & Hafter & _).
  rewrite Hfr in Hfr2. injection Hfr2 as <-.
  rewrite Hfd in Hfd2. injection Hfd2 as <-.
  cbv zeta in *. rewrite Hpos in *. simpl in *.
  apply mapWithIndex_lookup in Hch as [Hlen Hall].
  assert (Hheight : ∀ i el,
    children (screens (output pass)) !! i = Some (Some el) →
    heightContext el
    = match (if BottomTabs.isLargeScreen w then PosLeft else PosBottom) with
      | PosBottom => tabBarHeight hooks
      | _ => 0%Q
      end).
  { intros i el Hel.
    assert (is_Some (routes (state props) !! i)) as [r Hr].
    { apply lookup_lt_is_Some. rewrite <- Hlen. by apply lookup_lt_Some in Hel. }
    destruct (Hall i r Hr) as (o & Eo & Ho). simpl in Eo.
    rewrite Hel in Ho. injection Ho as <-.
    by apply renderRoute_element in Eo as (d & _ & ->). }
  unfold BottomTabs.isLargeScreen in *.
  destruct (Qle_bool 1024 w) eqn:Hw.
  - apply Qle_bool_iff in Hw. rewrite Hbefore, Hafter, Hstyle.
    split_and!; try done.
  - assert (Hn : ¬ (1024 <= w)%Q).
    { intros Hle. apply Qle_bool_iff in Hle. congruence. }
    rewrite Hbefore, Hafter, Hstyle. split_and!; try done.
Qed.

End MoreProperties.

(** ** Properties of the example screen *)

(** X19.  Picking an entry of the action sheet makes it the current
    animation: the screen options then carry that animation, the next
    sheet marks that entry, and only that entry, as current, and the
    compact flag is untouched.  Dismissing the sheet changes nothing. *)
Theorem actionSheet_marks_selection (st : BottomTabs.State) (i : nat)
    (a : TabAnimationName) :
  BottomTabs.animations !! i = Some a →
  let st2 := BottomTabs.onActionSheetSelect (Some i) st in
  BottomTabs.st_animation st2 = Some a ∧
  BottomTabs.st_isCompact st2 = BottomTabs.st_isCompact st ∧
  (∀ w, BottomTabs.so_animation (BottomTabs.screenOptions w st2) = Some a) ∧
  BottomTabs.actionSheetOptions st2 !! i
  = Some (BottomTabs.animationName a +:+ " (current)") ∧
  (∀ j b, j ≠ i → BottomTabs.animations !! j = Some b →
     BottomTabs.actionSheetOptions st2 !! j = Some (BottomTabs.animationName b)) ∧
  BottomTabs.onActionSheetSelect None st = st.
Proof.
  intros Ha. cbv zeta.
  unfold BottomTabs.actionSheetOptions, BottomTabs.onActionSheetSelect.
  cbn [BottomTabs.st_animation BottomTabs.st_isCompact
       BottomTabs.screenOptions BottomTabs.so_animation].
  rewrite Ha. split_and!; try done.
  - rewrite list_lookup_fmap, Ha. simpl. by rewrite bool_decide_eq_true_2.
  - intros j b Hj Hb. rewrite list_lookup_fmap, Hb. simpl.
    rewrite bool_decide_eq_false_2; [done|]. intros [= ->]. apply Hj.
    assert (Hnd : NoDup BottomTabs.animations).
    { by apply (bool_decide_unpack _). }
    by eapply NoDup_lookup.
Qed.

(** X20.  An index past the three entries reads [undefined] from
    [animations]: the animation becomes unset, no entry of the next
    sheet is marked as current, and the header button shows the filled
    heart, as it does for every animation but ['none']. *)
Theorem actionSheet_index_past_end (st : BottomTabs.State) (i : nat) (w : Q) :
  length BottomTabs.animations ≤ i →
  let st2 := BottomTabs.onActionSheetSelect (Some i) st in
  BottomTabs.st_animation st2 = None ∧
  BottomTabs.actionSheetOptions st2 = ["none"; "fade"; "shift"] ∧
  BottomTabs.so_headerRightIcon (BottomTabs.screenOptions w st2) = "heart" ∧
  (∀ st3, BottomTabs.so_headerRightIcon (BottomTabs.screenOptions w st3)
          = "heart-outline"
          ↔ BottomTabs.st_animation st3 = Some AnimNone).
Proof.
  intros Hi. cbv zeta.
  assert (Hnone : BottomTabs.animations !! i = None) by by apply lookup_ge_None.
  unfold BottomTabs.actionSheetOptions, BottomTabs.onActionSheetSelect.
  cbn [BottomTabs.st_animation BottomTabs.st_isCompact
       BottomTabs.screenOptions BottomTabs.so_headerRightIcon].
  rewrite Hnone. split_and!; try done.
  intros st3. case_bool_decide; split; try done.
Qed.

(** X21.  The sidebar layout of the example goes with the width alone:
    the tab bar is on the left exactly in windows at least 1024 wide
    and at the bottom otherwise; labels go below the icons only on the
    left and only in compact mode; the button that toggles compact mode
    is rendered exactly when the tab bar is on the left; the tab bar of
    [TabAlbums] is positioned absolutely exactly when it is at the
    bottom; and pressing the button twice restores the state. *)
Theorem example_layout_by_width (w : Q) (st : BottomTabs.State) :
  let so := BottomTabs.screenOptions w st in
  (BottomTabs.so_tabBarPosition so = PosLeft ↔ (1024 <= w)%Q) ∧
  (BottomTabs.so_tabBarPosition so = PosBottom ↔ ¬ (1024 <= w)%Q) ∧
  (BottomTabs.so_tabBarLabelPosition so = Some BottomTabs.BelowIcon
   ↔ BottomTabs.so_tabBarPosition so = PosLeft
     ∧ BottomTabs.st_isCompact st = true) ∧
  (is_Some (BottomTabs.compactToggle w st)
   ↔ BottomTabs.so_tabBarPosition so = PosLeft) ∧
  (BottomTabs.albumsTabBarPosition w = Some "absolute"
   ↔ BottomTabs.so_tabBarPosition so = PosBottom) ∧
  BottomTabs.onCompactToggle (BottomTabs.onCompactToggle st) = st.
Proof.
  cbv zeta. unfold BottomTabs.compactToggle, BottomTabs.albumsTabBarPosition,
    BottomTabs.onCompactToggle, BottomTabs.isLargeScreen. simpl.
  unfold BottomTabs.isLargeScreen.
  destruct (Qle_bool 1024 w) eqn:Hw; destruct st as [an [|]]; simpl.
  all: assert (Hle : (1024 <= w)%Q ↔ Qle_bool 1024 w = true)
         by (symmetry; apply Qle_bool_iff).
  all: rewrite Hle, Hw.
  all: split_and!; try done; try (split; [done|by intros [? ?]]);
       try (split; [by intros [? ?]|done]); try (split; [by eexists|done]);
       try (split; [by intros [? ?]|by intros]); auto.
Qed.

(** ** The further properties on the four-tab navigator *)

Lemma children_follow_routes_witness :
  ∃ pass el,
    @BottomTabView Demo.types Demo.host (Demo.props 1 None) Demo.hooks = Normal pass ∧
    length (children (screens (output pass))) = 4 ∧
    children (screens (output pass)) !! 1 = Some (Some el) ∧
    element_key el = "TabChat-b".
Proof.
  eassert (E : @BottomTabView Demo.types Demo.host (Demo.props 1 None) Demo.hooks
               = Normal _) by (vm_compute; reflexivity).
  match type of E with
  | _ = Normal ?p =>
      eassert (Hel : children (screens (output p)) !! 1 = Some (Some _))
        by (vm_compute; reflexivity)
  end.
  destruct (children_follow_routes _ _ _ E) as [Hlen Hall].
  destruct (Hall 1 _ Hel) as (r & d & Hr & _ & Hk & _).
  vm_compute in Hr. injection Hr as <-.
  eexists _, _. split; [exact E|]. split; [exact Hlen|]. split; [exact Hel|].
  exact Hk.
Defined.

Lemma one_screen_on_top_witness :
  ∃ pass el el0,
    @BottomTabView Demo.types Demo.host (Demo.props 1 None) Demo.visited = Normal pass ∧
    children (screens (output pass)) !! 1 = Some (Some el) ∧
    zIndex el = 0%Z ∧
    children (screens (output pass)) !! 0 = Some (Some el0) ∧
    zIndex el0 = (-1)%Z.
Proof.
  eassert (E : @BottomTabView Demo.types Demo.host (Demo.props 1 None) Demo.visited
               = Normal _) by (vm_compute; reflexivity).
  match type of E with
  | _ = Normal ?p =>
      eassert (Hel0 : children (screens (output p)) !! 0 = Some (Some _))
        by (vm_compute; reflexivity)
  end.
  destruct (one_screen_on_top _ _ _ E) as [(el & Hel & _ & Hz & _) Hothers].
  destruct (Hothers 0 _ ltac:(done) Hel0) as (_ & Hz0 & _).
  eexists _, el, _. split; [exact E|]. split; [exact Hel|]. split; [exact Hz|].
  split; [exact Hel0|]. exact Hz0.
Defined.

Lemma BottomTabView_returns_only_if_witness :
  ∃ pass,
    @BottomTabView Demo.types Demo.host (Demo.props 1 None) Demo.visited = Normal pass ∧
    index (state (Demo.props 1 None)) < length (routes (state (Demo.props 1 None))) ∧
    is_Some (descriptors (Demo.props 1 None) !! "TabAlbums-d") ∧
    is_Some (@useAnimatedHashMap Demo.types Demo.host (state (Demo.props 1 None))
               !! "TabStack-a").
Proof.
  eassert (E : @BottomTabView Demo.types Demo.host (Demo.props 1 None) Demo.visited
               = Normal _) by (vm_compute; reflexivity).
  destruct (BottomTabView_returns_only_if _ _ _ E) as (Hidx & Hdesc & Hanims).
  eexists. split; [exact E|]. split; [exact Hidx|]. split.
  - apply (Hdesc Demo.tabAlbums). by apply (list_elem_of_lookup_2 _ 3).
  - apply (Hanims 0 Demo.tabStack
             (Demo.describe Demo.tabStack
                (Demo.tabOptions None (Some AnimShift) None None)));
      try done.
    right. left. apply includes_true. reflexivity.
Defined.

Lemma effect_skipped_iff_unchanged_witness :
  ∃ u,
    @update Demo.types Demo.host (Demo.props 1 None) Demo.ids Demo.hooks = Normal u ∧
    started u = None.
Proof.
  eassert (E : @update Demo.types Demo.host (Demo.props 1 None) Demo.ids Demo.hooks
               = Normal _) by (vm_compute; reflexivity).
  match type of E with _ = Normal ?x => set (u := x) in E end.
  destruct (effect_skipped_iff_unchanged _ _ _ _ E) as (fr & Hfr & Hiff & _).
  vm_compute in Hfr. injection Hfr as <-.
  exists u. split; [exact E|]. apply Hiff. reflexivity.
Defined.

Lemma mount_starts_at_rest_witness :
  ∃ u animations a,
    @mount Demo.types Demo.host (Demo.props 1 None) Demo.ids = Normal u ∧
    started u = Some animations ∧
    animations !! 0 = Some a ∧
    driver a = timing ∧
    animation_config a !! "duration" = Some (VNumber 0%Q).
Proof.
  eassert (E : @mount Demo.types Demo.host (Demo.props 1 None) Demo.ids = Normal _)
    by (vm_compute; reflexivity).
  match type of E with _ = Normal ?x => set (u := x) in E end.
  destruct (mount_starts_at_rest _ _ _ E) as (fr & an & Hfr & Hst & Hlen & _ & Hall).
  vm_compute in Hfr. injection Hfr as <-.
  assert (is_Some (an !! 0)) as [a Ha].
  { apply lookup_lt_is_Some. rewrite Hlen. simpl. lia. }
  destruct (Hall 0 Demo.tabStack a eq_refl Ha) as [Hd Hc]; [done|].
  exists u, an, a. by split_and!.
Defined.

Lemma custom_transitionSpec_used_witness :
  ∃ animations hooks2 a,
    @effect Demo.types Demo.host (Demo.props 1 None) Demo.hooks
    = Normal (animations, hooks2) ∧
    animations !! 1 = Some a ∧
    driver a = spring ∧
    animation_config a !! "stiffness" = Some (VNumber 1000%Q).
Proof.
  eassert (E : @effect Demo.types Demo.host (Demo.props 1 None) Demo.hooks
               = Normal (_, _)) by (vm_compute; reflexivity).
  match type of E with _ = Normal (?x, ?y) => set (an := x) in E; set (h2 := y) in E end.
  destruct (custom_transitionSpec_used _ _ _ _ 1 Demo.tabChat Demo.tabChat
              (Demo.describe Demo.tabChat
                 (Demo.tabOptions None None (Some Demo.springSpec) None))
              Demo.springSpec E eq_refl eq_refl eq_refl eq_refl)
    as (a & v & Ha & Hd & Hk & _); [by left|].
  exists an, h2, a. split; [exact E|]. split; [exact Ha|]. split; [exact Hd|].
  rewrite Hk by done. reflexivity.
Defined.

Lemma unset_animation_moves_instantly_witness :
  ∃ animations hooks2 a,
    @effect Demo.types Demo.host (Demo.props 3 None) Demo.hooks
    = Normal (animations, hooks2) ∧
    animations !! 3 = Some a ∧
    driver a = timing ∧
    animation_config a !! "duration" = Some (VNumber 0%Q).
Proof.
  eassert (E : @effect Demo.types Demo.host (Demo.props 3 None) Demo.hooks
               = Normal (_, _)) by (vm_compute; reflexivity).
  match type of E with _ = Normal (?x, ?y) => set (an := x) in E; set (h2 := y) in E end.
  destruct (unset_animation_moves_instantly _ _ _ _ 3 Demo.tabAlbums
              (Demo.describe Demo.tabAlbums (Demo.tabOptions None None None None))
              E eq_refl eq_refl eq_refl)
    as [(a & Ha & Hd & Hc) _]; [by left|].
  exists an, h2, a. by split_and!.
Defined.

Lemma previousRouteKey_tracks_focus_witness :
  ∃ u0 hooks,
    @mount Demo.types Demo.host (Demo.props 1 None) Demo.ids = Normal u0 ∧
    @run Demo.types Demo.host (hooks_after u0)
      [Rerender (Demo.props 3 None) Demo.ids; TabBarHeight 60%Q] = Normal hooks ∧
    focusedKey
      (lastRendered (Demo.props 1 None)
         [Rerender (Demo.props 3 None) Demo.ids; TabBarHeight 60%Q])
    = Some (previousRouteKeyRef hooks) ∧
    previousRouteKeyRef hooks = "TabAlbums-d".
Proof.
  eassert (E0 : @mount Demo.types Demo.host (Demo.props 1 None) Demo.ids = Normal _)
    by (vm_compute; reflexivity).
  match type of E0 with _ = Normal ?x => set (u0 := x) in E0 end.
  eassert (E1 : @run Demo.types Demo.host (hooks_after u0)
                  [Rerender (Demo.props 3 None) Demo.ids; TabBarHeight 60%Q]
                = Normal _)
    by (vm_compute; reflexivity).
  match type of E1 with _ = Normal ?x => set (hooks := x) in E1 end.
  destruct (previousRouteKey_tracks_focus _ _ _ _ _ E0 E1) as [Hfoc _].
  exists u0, hooks. split; [exact E0|]. split; [exact E1|].
  split; [exact Hfoc|reflexivity].
Defined.

Lemma scene_style_only_when_animated_witness :
  ∃ pass el,
    @BottomTabView Demo.types Demo.host (Demo.props 1 None) Demo.visited = Normal pass ∧
    children (screens (output pass)) !! 0 = Some (Some el) ∧
    (screen_style (screen el)).2 = Some "forShift".
Proof.
  eassert (E : @BottomTabView Demo.types Demo.host (Demo.props 1 None) Demo.visited
               = Normal _) by (vm_compute; reflexivity).
  match type of E with
  | _ = Normal ?p =>
      eassert (Hel : children (screens (output p)) !! 0 = Some (Some _))
        by (vm_compute; reflexivity)
  end.
  destruct (scene_style_only_when_animated _ _ _ 0 Demo.tabStack
              (Demo.describe Demo.tabStack
                 (Demo.tabOptions None (Some AnimShift) None None))
              _ E eq_refl eq_refl Hel)
    as (_ & _ & _ & Hpreset & _).
  eexists _, _. split; [exact E|]. split; [exact Hel|].
  rewrite (Hpreset AnimShift) by done. reflexivity.
Defined.

Lemma detach_setting_shared_witness :
  ∃ pass,
    @BottomTabView Demo.types Demo.host (Demo.props 1 None) Demo.hooks = Normal pass ∧
    container_enabled (screens (output pass)) = true.
Proof.
  eassert (E : @BottomTabView Demo.types Demo.host (Demo.props 1 None) Demo.hooks
               = Normal _) by (vm_compute; reflexivity).
  destruct (detach_setting_shared _ _ _ E) as (_ & _ & Hdefault).
  eexists. split; [exact E|]. apply Hdefault; [reflexivity|]. by right; right.
Defined.

Lemma two_states_without_interpolation_witness :
  ∃ pass el,
    @BottomTabView Demo.types Demo.host Demo.still Demo.visited = Normal pass ∧
    hasTwoStates (screens (output pass)) = true ∧
    children (screens (output pass)) !! 0 = Some (Some el) ∧
    active el = @ActivityNumber Demo.types STATE_INACTIVE.
Proof.
  eassert (E : @BottomTabView Demo.types Demo.host Demo.still Demo.visited
               = Normal _) by (vm_compute; reflexivity).
  match type of E with
  | _ = Normal ?p =>
      eassert (Hel : children (screens (output p)) !! 0 = Some (Some _))
        by (vm_compute; reflexivity)
  end.
  eexists _, _. split; [exact E|]. split; [reflexivity|]. split; [exact Hel|].
  exact (two_states_without_interpolation _ _ _ 0 _ E eq_refl Hel).
Defined.

Lemma initial_height_insets_witness :
  ∃ hooks0 args,
    @initialHooks Demo.types Demo.host (Demo.props 1 None) = Normal hooks0 ∧
    tabBarHeight hooks0 = @getTabBarHeight Demo.types Demo.host args ∧
    h_insets args !! "bottom" = Some (Some 20%Q) ∧
    h_insets args !! "top" = Some None ∧
    h_insets args !! "left" = Some (Some 0%Q).
Proof.
  eassert (E : @initialHooks Demo.types Demo.host (Demo.props 1 None) = Normal _)
    by (vm_compute; reflexivity).
  destruct (initial_height_insets _ _ E) as (args & Hh & _ & _ & Hprop & Hinit & _).
  eexists _, args. split; [exact E|]. split; [exact Hh|]. split_and!.
  - apply (Hprop SideBottom _ _ eq_refl). reflexivity.
  - apply (Hprop SideTop _ _ eq_refl). reflexivity.
  - apply (Hinit SideLeft). right. eexists. split; reflexivity.
Defined.

Lemma measuring_keeps_screens_witness :
  ∃ pass pass2,
    @BottomTabView Demo.types Demo.host (Demo.props 1 None) Demo.hooks = Normal pass ∧
    @BottomTabView Demo.types Demo.host (Demo.props 1 None)
      (setTabBarHeight 60%Q Demo.hooks) = Normal pass2 ∧
    children (screens (output pass2)) !! 0 = Some None.
Proof.
  eassert (E : @BottomTabView Demo.types Demo.host (Demo.props 1 None) Demo.hooks
               = Normal _) by (vm_compute; reflexivity).
  destruct (measuring_keeps_screens _ _ _ 60%Q E) as (pass2 & E2 & _ & _ & _ & Hsame).
  eexists _, pass2. split; [exact E|]. split; [exact E2|]. exact (Hsame 0).
Defined.

Lemma loaded_no_duplicates_witness :
  ∃ u0 hooks,
    @mount Demo.types Demo.host (Demo.props 1 None) Demo.ids = Normal u0 ∧
    @run Demo.types Demo.host (hooks_after u0)
      [Rerender (Demo.props 3 None) Demo.ids;
       Rerender (Demo.props 1 None) Demo.ids] = Normal hooks ∧
    NoDup (loaded hooks).
Proof.
  eassert (E0 : @mount Demo.types Demo.host (Demo.props 1 None) Demo.ids = Normal _)
    by (vm_compute; reflexivity).
  match type of E0 with _ = Normal ?x => set (u0 := x) in E0 end.
  eassert (E1 : @run Demo.types Demo.host (hooks_after u0)
                  [Rerender (Demo.props 3 None) Demo.ids;
                   Rerender (Demo.props 1 None) Demo.ids]
                = Normal _)
    by (vm_compute; reflexivity).
  match type of E1 with _ = Normal ?x => set (hooks := x) in E1 end.
  exists u0, hooks. split; [exact E0|]. split; [exact E1|].
  exact (loaded_no_duplicates _ _ _ _ _ E0 E1).
Defined.

Lemma loaded_only_visited_witness :
  ∃ u0 hooks p,
    @mount Demo.types Demo.host (Demo.props 1 None) Demo.ids = Normal u0 ∧
    @run Demo.types Demo.host (hooks_after u0)
      [Rerender (Demo.props 3 None) Demo.ids] = Normal hooks ∧
    "TabAlbums-d" ∈ loaded hooks ∧
    p ∈ @renderedProps Demo.types (Demo.props 1 None)
          [Rerender (Demo.props 3 None) Demo.ids] ∧
    focusedKey p = Some "TabAlbums-d".
Proof.
  eassert (E0 : @mount Demo.types Demo.host (Demo.props 1 None) Demo.ids = Normal _)
    by (vm_compute; reflexivity).
  match type of E0 with _ = Normal ?x => set (u0 := x) in E0 end.
  eassert (E1 : @run Demo.types Demo.host (hooks_after u0)
                  [Rerender (Demo.props 3 None) Demo.ids] = Normal _)
    by (vm_compute; reflexivity).
  match type of E1 with _ = Normal ?x => set (hooks := x) in E1 end.
  assert (Hk : "TabAlbums-d" ∈ loaded hooks).
  { apply includes_true. reflexivity. }
  destruct (loaded_only_visited _ _ _ _ _ _ E0 E1 Hk) as (p & Hp & Hfoc).
  exists u0, hooks, p. by split_and!.
Defined.

Lemma never_visited_stays_unmounted_witness :
  ∃ u0 hooks u,
    @mount Demo.types Demo.host (Demo.props 1 None) Demo.ids = Normal u0 ∧
    @run Demo.types Demo.host (hooks_after u0) [TabBarHeight 60%Q] = Normal hooks ∧
    @update Demo.types Demo.host (Demo.props 3 None) Demo.ids hooks = Normal u ∧
    children (screens (tree u)) !! 0 = Some None.
Proof.
  eassert (E0 : @mount Demo.types Demo.host (Demo.props 1 None) Demo.ids = Normal _)
    by (vm_compute; reflexivity).
  match type of E0 with _ = Normal ?x => set (u0 := x) in E0 end.
  eassert (E1 : @run Demo.types Demo.host (hooks_after u0) [TabBarHeight 60%Q]
                = Normal _)
    by (vm_compute; reflexivity).
  match type of E1 with _ = Normal ?x => set (hooks := x) in E1 end.
  eassert (E2 : @update Demo.types Demo.host (Demo.props 3 None) Demo.ids hooks
                = Normal _)
    by (vm_compute; reflexivity).
  match type of E2 with _ = Normal ?x => set (u := x) in E2 end.
  exists u0, hooks, u. split; [exact E0|]. split; [exact E1|]. split; [exact E2|].
  apply (never_visited_stays_unmounted _ _ _ _ _ _ _ _ 0 Demo.tabStack
           (Demo.describe Demo.tabStack
              (Demo.tabOptions None (Some AnimShift) None None))
           E0 E1 E2 eq_refl eq_refl).
  - done.
  - apply includes_false. reflexivity.
  - intros p Hp. unfold renderedProps in Hp. simpl in Hp.
    apply elem_of_cons in Hp as [->|Hp]; [done|].
    apply elem_of_cons in Hp as [->|Hp]; [done|].
    by apply elem_of_nil in Hp.
Defined.

Lemma example_position_by_width_witness :
  ∃ pass,
    @BottomTabView Demo.types Demo.host (Demo.props 1 (Some PosLeft)) Demo.hooks
    = Normal pass ∧
    root_style (output pass) = Some styles_left ∧
    ∀ i el, children (screens (output pass)) !! i = Some (Some el) →
            heightContext el = 0%Q.
Proof.
  eassert (E : @BottomTabView Demo.types Demo.host (Demo.props 1 (Some PosLeft))
                 Demo.hooks = Normal _) by (vm_compute; reflexivity).
  destruct (example_position_by_width _ _ _ 1280%Q BottomTabs.initialState
              Demo.tabChat
              (Demo.describe Demo.tabChat
                 (Demo.tabOptions None None (Some Demo.springSpec) (Some PosLeft)))
              E eq_refl eq_refl eq_refl)
    as (_ & _ & Hwide & _).
  eexists. split; [exact E|]. apply Hwide. done.
Defined.

Lemma actionSheet_marks_selection_witness :
  BottomTabs.animations !! 1 = Some AnimFade ∧
  BottomTabs.actionSheetOptions
    (BottomTabs.onActionSheetSelect (Some 1) BottomTabs.initialState) !! 1
  = Some "fade (current)" ∧
  BottomTabs.actionSheetOptions
    (BottomTabs.onActionSheetSelect (Some 1) BottomTabs.initialState) !! 0
  = Some "none".
Proof.
  split; [reflexivity|].
  destruct (actionSheet_marks_selection BottomTabs.initialState 1 AnimFade eq_refl)
    as (_ & _ & _ & Hcur & Hothers & _).
  split; [exact Hcur|]. by apply (Hothers 0 AnimNone).
Defined.

Lemma actionSheet_index_past_end_witness :
  length BottomTabs.animations ≤ 3 ∧
  BottomTabs.st_animation
    (BottomTabs.onActionSheetSelect (Some 3) BottomTabs.initialState) = None.
Proof.
  assert (Hlen : length BottomTabs.animations ≤ 3) by (simpl; lia).
  split; [exact Hlen|].
  exact (proj1 (actionSheet_index_past_end BottomTabs.initialState 3 0%Q Hlen)).
Defined.
